(** * SDET-GENIE: the execution-trace extraction pipeline of [execute_test]

    A shallow embedding of [execute_test] (src/app_modified.py, lines 76-350):
    the scenario splitter, the per-scenario trace collection, the element
    resolver with its index-to-XPath dictionary, and the record stored in the
    session.

    Python [str] values are modelled as [string], a character being a code
    point below 256.  On that range [str.isspace] and the regular-expression
    class [\d] are exactly the predicates [isspace] and [isdigit] below.
    [int] is modelled by [Z], the conversion [int(...)] of a digit run with
    its default limit of 4300 digits; dictionaries keyed by element index by
    [gmap].  Exceptions are explicit: a step gives the state it reached and
    the exception that ended it, if any. *)

From Stdlib Require Import ZArith NArith Ascii String List Lia.
From stdpp Require Import gmap strings list fin_maps.

(** ** Text primitives: [str] methods and the three [re.search] patterns *)

Module Text.

Definition newline : ascii := "010"%char.
Definition quote : ascii := "'"%char.

(** [str.isspace] on one character: TAB..CR, FS..US, SPACE, NEL, NBSP. *)
Definition isspace (c : ascii) : bool :=
  let n := N_of_ascii c in
  ((9 <=? n) && (n <=? 13) || (28 <=? n) && (n <=? 32)
   || (n =? 133) || (n =? 160))%N.

(** The class [\d]. *)
Definition isdigit (c : ascii) : bool :=
  let n := N_of_ascii c in ((48 <=? n) && (n <=? 57))%N.

Fixpoint lstrip (s : string) : string :=
  match s with
  | String c s' => if isspace c then lstrip s' else s
  | EmptyString => EmptyString
  end.

Fixpoint rstrip (s : string) : string :=
  match s with
  | String c s' =>
      match rstrip s' with
      | EmptyString => if isspace c then EmptyString else String c EmptyString
      | r => String c r
      end
  | EmptyString => EmptyString
  end.

(** [s.strip()] *)
Definition strip (s : string) : string := rstrip (lstrip s).

(** [s.startswith(p)] *)
Fixpoint startswith (p s : string) : bool :=
  match p, s with
  | EmptyString, _ => true
  | String a p', String b s' => Ascii.eqb a b && startswith p' s'
  | String _ _, EmptyString => false
  end.

(** [s.split("\n")]: never empty, the empty text gives one empty line. *)
Fixpoint split_lines (s : string) : list string :=
  match s with
  | EmptyString => [EmptyString]
  | String c s' =>
      if Ascii.eqb c newline then EmptyString :: split_lines s'
      else match split_lines s' with
           | l :: ls => String c l :: ls
           | [] => [String c EmptyString]
           end
  end.

(** ["\n".join(ls)] *)
Fixpoint join_lines (ls : list string) : string :=
  match ls with
  | [] => EmptyString
  | [l] => l
  | l :: ls' => l +:+ String newline (join_lines ls')
  end.

(** [s] is [p] followed by the returned remainder. *)
Fixpoint strip_prefix (p s : string) : option string :=
  match p, s with
  | EmptyString, _ => Some s
  | String a p', String b s' =>
      if Ascii.eqb a b then strip_prefix p' s' else None
  | String _ _, EmptyString => None
  end.

(** The longest leading run of characters satisfying [f], and the rest:
    what a greedy [c+] or [c*] consumes. *)
Fixpoint span (f : ascii → bool) (s : string) : string * string :=
  match s with
  | String c s' =>
      if f c then let '(run, rest) := span f s' in (String c run, rest)
      else (EmptyString, s)
  | EmptyString => (EmptyString, EmptyString)
  end.

(** [re.search]: the anchored matcher [m] is tried at every start
    position, leftmost first. *)
Fixpoint search {A} (m : string → option A) (s : string) : option A :=
  match m s with
  | Some r => Some r
  | None =>
      match s with
      | String _ s' => search m s'
      | EmptyString => None
      end
  end.

(** [xpath='([^']+)'] anchored at the start of [s]; the result is group 1.
    The greedy run stops at the first quote, and no shorter run can be
    followed by a quote, so there is nothing to backtrack to. *)
Definition match_xpath_attr (s : string) : option string :=
  match strip_prefix "xpath='" s with
  | Some r =>
      match span (λ c, negb (Ascii.eqb c quote)) r with
      | (String c v, String q _) =>
          if Ascii.eqb q quote then Some (String c v) else None
      | _ => None
      end
  | None => None
  end.

(** [The xpath of the element is (.+)] anchored at the start of [s]; the
    dot matches every character but the newline. *)
Definition match_xpath_phrase (s : string) : option string :=
  match strip_prefix "The xpath of the element is " s with
  | Some r =>
      match span (λ c, negb (Ascii.eqb c newline)) r with
      | (String c v, _) => Some (String c v)
      | _ => None
      end
  | None => None
  end.

(** [element (\d+)] anchored at the start of [s]. *)
Definition match_element_index (s : string) : option string :=
  match strip_prefix "element " s with
  | Some r =>
      match span isdigit r with
      | (String c v, _) => Some (String c v)
      | _ => None
      end
  | None => None
  end.

(** The value of a run of decimal digits. *)
Fixpoint int_of_digits (acc : Z) (ds : string) : Z :=
  match ds with
  | String c ds' =>
      int_of_digits (10 * acc + (Z.of_N (N_of_ascii c) - 48)) ds'
  | EmptyString => acc
  end.

(** [sys.int_info.default_max_str_digits] *)
Definition int_max_str_digits : nat := 4300.

(** [int(ds)] for a run of decimal digits; [None] stands for the
    [ValueError] that a run of more than 4300 digits raises, leading zeros
    counted. *)
Definition int (ds : string) : option Z :=
  if String.length ds <=? int_max_str_digits
  then Some (int_of_digits 0 ds)
  else None.

(** [t] occurs in [s]. *)
Definition contains (t s : string) : Prop :=
  ∃ pre post : string, s = pre +:+ t +:+ post.

End Text.

(** ** The scenario splitter (lines 84-94) *)

(** The truth value of a list. *)
Definition truthy_list {A} (l : list A) : bool :=
  match l with [] => false | _ :: _ => true end.

(** One iteration of the loop over the lines; the state is
    [(scenarios, current_scenario)]. *)
Definition split_step (acc : list string * list string) (line : string)
  : list string * list string :=
  let '(scenarios, current_scenario) := acc in
  if Text.startswith "Scenario:" (Text.strip line) then
    ((if truthy_list current_scenario
      then scenarios ++ [Text.join_lines current_scenario]
      else scenarios),
     [line])
  else if truthy_list current_scenario then
    (scenarios, current_scenario ++ [line])
  else (scenarios, current_scenario).

Definition split_scenarios (steps : string) : list string :=
  let '(scenarios, current_scenario) :=
    fold_left split_step (Text.split_lines steps) ([], []) in
  if truthy_list current_scenario
  then scenarios ++ [Text.join_lines current_scenario]
  else scenarios.

(** ** Data model *)

(** A value used as element index: Python [None] or an [int].  These are
    the keys of [element_xpath_map]. *)
Inductive elem_index : Type :=
| NoneIndex
| IntIndex (z : Z).

#[global] Instance elem_index_eq_dec : EqDecision elem_index.
Proof. solve_decision. Defined.

#[global] Instance elem_index_countable : Countable elem_index :=
  inj_countable'
    (λ k, match k with NoneIndex => None | IntIndex z => Some z end)
    (λ o, match o with None => NoneIndex | Some z => IntIndex z end)
    (λ k, match k with NoneIndex => eq_refl | IntIndex _ => eq_refl end).

(** The value stored under ["interacted_element"]: [None], an element
    object (true, and [str] gives its rendering), or a plain text. *)
Inductive element_info : Type :=
| ElemNone
| ElemObject (repr : string)
| ElemText (s : string).

Definition truthy_element (e : element_info) : bool :=
  match e with
  | ElemNone => false
  | ElemObject _ => true
  | ElemText EmptyString => false
  | ElemText (String _ _) => true
  end.

Definition str_element (e : element_info) : string :=
  match e with
  | ElemNone => "None"
  | ElemObject repr => repr
  | ElemText s => s
  end.

(** The parameter dictionary of one action: only its ["index"] entry is
    ever read ([None] here: the key is absent). *)
Record action_params : Type := { param_index : option elem_index }.

(** [params.get("index")]: [None] when the key is absent. *)
Definition discovery_index (p : action_params) : elem_index :=
  match param_index p with Some k => k | None => NoneIndex end.

(** One raw entry of [history.model_actions()]: a dictionary, of which the
    code reads these five keys ([None]: the key is absent). *)
Record action_data : Type := {
  get_xpath_of_element : option action_params;
  input_text : option action_params;
  click_element : option action_params;
  perform_element_action : option action_params;
  interacted_element : option element_info;
}.

(** The dictionary [action_detail["element_details"]]. *)
Record element_details : Type := {
  ed_index : option elem_index;
  ed_xpath : option string;
}.

(** The dictionary [action_detail] (lines 139-143). *)
Record action_detail : Type := {
  ad_name : string;
  ad_index : nat;
  ad_element_details : element_details;
}.

(** Free-form values: results and extracted-content items. *)
#[warnings="-register-all"] Inductive pyvalue : Type :=
| PyNone
| PyInt (z : Z)
| PyStr (s : string)
| PyDict (items : list (string * pyvalue)).

(** What the agent's history object answers to the six getters. *)
Record agent_history : Type := {
  final_result : pyvalue;
  model_actions : list action_data;
  action_names : list string;
  urls : list string;
  extracted_content : list pyvalue;
  errors : list pyvalue;
}.

(** The three places that assign into [element_xpath_map]: line 167
    (discovery entry), line 217 (interaction entry), line 243 (content). *)
Inductive channel : Type := Discovery | Interaction | FreeText.

(** The accumulators of lines 97-100.  [xpath_writes] is a ghost field: the
    log of the assignments [element_xpath_map[k] = v], oldest first, each
    with the place that made it. *)
Record run_state : Type := {
  all_results : list pyvalue;
  all_actions : list action_detail;
  all_extracted_content : list pyvalue;
  element_xpath_map : gmap elem_index string;
  xpath_writes : list (channel * elem_index * string);
}.

Definition initial_state : run_state :=
  {| all_results := []; all_actions := []; all_extracted_content := [];
     element_xpath_map := ∅; xpath_writes := [] |}.

(** The dictionary stored in [st.session_state.history] (lines 246-257). *)
Record execution_record : Type := {
  rec_urls : list string;
  rec_action_names : list string;
  rec_detailed_actions : list action_detail;
  rec_element_xpaths : gmap elem_index string;
  rec_extracted_content : list pyvalue;
  rec_errors : list pyvalue;
  rec_model_actions : list action_data;
  rec_execution_date : string;
}.

(** The two session keys the function touches ([None]: not set). *)
Record session_state : Type := {
  history : option execution_record;
  execution_date : option string;
}.

(** The exceptions that leave the [try]: what the agent raised, the read
    of the variable [history] at line 247 when no scenario has run, the
    refusal by [int] at line 242 of a run of [digits] digits, and what the
    display code after the store raised. *)
Inductive exn : Type :=
| AgentError (msg : string)
| UnboundLocalError (var : string)
| ValueError (digits : nat)
| DisplayError (msg : string).

(** What the collaborators do for one scenario, from the making of the
    agent to the report of its actions (lines 103-128): one of them
    raises, or the agent's history is there. *)
Inductive agent_outcome : Type :=
| Raises (e : exn)
| Returns (h : agent_history).

(** ** The element resolver (lines 131-224) *)

(** [element_xpath_map[k] = v], made at place [c]. *)
Definition assign_xpath (c : channel) (k : elem_index) (v : string)
    (st : run_state) : run_state :=
  {| all_results := all_results st;
     all_actions := all_actions st;
     all_extracted_content := all_extracted_content st;
     element_xpath_map := <[k := v]> (element_xpath_map st);
     xpath_writes := xpath_writes st ++ [(c, k, v)] |}.

Definition set_index (k : elem_index) (d : element_details)
  : element_details :=
  {| ed_index := Some k; ed_xpath := ed_xpath d |}.

Definition set_xpath (x : string) (d : element_details) : element_details :=
  {| ed_index := ed_index d; ed_xpath := Some x |}.

Definition no_details : element_details :=
  {| ed_index := None; ed_xpath := None |}.

(** Lines 155-166 and 202-216: the key is there, its value is true, and
    the pattern is found in its [str]. *)
Definition interacted_xpath (a : action_data) : option string :=
  match interacted_element a with
  | Some element_info =>
      if truthy_element element_info
      then Text.search Text.match_xpath_attr (str_element element_info)
      else None
  | None => None
  end.

(** Lines 147-170, the branch of a [get_xpath_of_element] entry. *)
Definition resolve_discovery (p : action_params) (a : action_data)
    (d : element_details) (st : run_state) : element_details * run_state :=
  let element_index := discovery_index p in
  let d := set_index element_index d in
  match interacted_xpath a with
  | Some xpath =>
      (set_xpath xpath d, assign_xpath Discovery element_index xpath st)
  | None => (d, st)
  end.

(** Lines 187-222, the body of the loop over the three keys, for one key
    whose entry in [action_data] is [entry]. *)
Definition resolve_interaction_key (a : action_data)
    (acc : element_details * run_state) (entry : option action_params)
  : element_details * run_state :=
  match entry with
  | Some action_params =>
      match param_index action_params with
      | Some element_index =>
          let '(d, st) := acc in
          let d := set_index element_index d in
          let d :=
            match element_xpath_map st !! element_index with
            | Some known => set_xpath known d
            | None => d
            end in
          match interacted_xpath a with
          | Some xpath =>
              (set_xpath xpath d,
               assign_xpath Interaction element_index xpath st)
          | None => (d, st)
          end
      | None => acc
      end
  | None => acc
  end.

Definition interaction_entries (a : action_data)
  : list (option action_params) :=
  [input_text a; click_element a; perform_element_action a].

(** Lines 146-222: the [element_details] of one entry and the state after. *)
Definition resolve_action (a : action_data) (st : run_state)
  : element_details * run_state :=
  match get_xpath_of_element a with
  | Some p => resolve_discovery p a no_details st
  | None =>
      if existsb (λ e : option action_params, bool_decide (is_Some e))
           (interaction_entries a)
      then fold_left (resolve_interaction_key a) (interaction_entries a)
             (no_details, st)
      else (no_details, st)
  end.

(** Lines 132-136. *)
Definition action_name_at (h : agent_history) (i : nat) : string :=
  match action_names h !! i with
  | Some n => n
  | None => "Unknown Action"
  end.

Definition append_action (r : action_detail) (st : run_state) : run_state :=
  {| all_results := all_results st;
     all_actions := all_actions st ++ [r];
     all_extracted_content := all_extracted_content st;
     element_xpath_map := element_xpath_map st;
     xpath_writes := xpath_writes st |}.

(** One iteration of the loop of line 131. *)
Definition process_action (h : agent_history) (i : nat) (a : action_data)
    (st : run_state) : run_state :=
  let '(d, st') := resolve_action a st in
  append_action
    {| ad_name := action_name_at h i; ad_index := i;
       ad_element_details := d |} st'.

(** The loop of line 131 from position [i] on. *)
Fixpoint process_actions (h : agent_history) (i : nat)
    (actions : list action_data) (st : run_state) : run_state :=
  match actions with
  | a :: rest => process_actions h (S i) rest (process_action h i a st)
  | [] => st
  end.

(** ** The pass over the extracted content (lines 227-243) *)

Definition append_content (c : pyvalue) (st : run_state) : run_state :=
  {| all_results := all_results st;
     all_actions := all_actions st;
     all_extracted_content := all_extracted_content st ++ [c];
     element_xpath_map := element_xpath_map st;
     xpath_writes := xpath_writes st |}.

(** One iteration of the loop of line 227: the state reached, and the
    exception that ended the iteration, if any. *)
Definition process_content (st : run_state) (content : pyvalue)
  : run_state * option exn :=
  let st := append_content content st in
  match content with
  | PyStr text =>
      match Text.search Text.match_xpath_phrase text with
      | Some xpath =>
          match Text.search Text.match_element_index text with
          | Some digits =>
              match Text.int digits with
              | Some element_index =>
                  (assign_xpath FreeText (IntIndex element_index) xpath st,
                   None)
              | None => (st, Some (ValueError (String.length digits)))
              end
          | None => (st, None)
          end
      | None => (st, None)
      end
  | _ => (st, None)
  end.

(** The loop of line 227; an exception leaves it at once. *)
Fixpoint process_contents (st : run_state) (contents : list pyvalue)
  : run_state * option exn :=
  match contents with
  | content :: rest =>
      match process_content st content with
      | (st', None) => process_contents st' rest
      | (st', Some e) => (st', Some e)
      end
  | [] => (st, None)
  end.

(** ** The trace collector (lines 102-243) *)

(** Lines 118-124. *)
Definition normalize_result (result : pyvalue) : pyvalue :=
  match result with
  | PyStr s =>
      PyDict [("status", PyStr s); ("details", PyStr "Execution completed")]
  | _ => result
  end.

Definition append_result (r : pyvalue) (st : run_state) : run_state :=
  {| all_results := all_results st ++ [r];
     all_actions := all_actions st;
     all_extracted_content := all_extracted_content st;
     element_xpath_map := element_xpath_map st;
     xpath_writes := xpath_writes st |}.

(** Lines 118-243: everything done with one returned history; the state
    reached, and the exception that ended it, if any. *)
Definition process_history (st : run_state) (h : agent_history)
  : run_state * option exn :=
  let st := append_result (normalize_result (final_result h)) st in
  let st := process_actions h 0 (model_actions h) st in
  process_contents st (extracted_content h).

(** The loop of line 102.  [n] counts the agent runs made so far and
    [last] is the variable [history], unbound before the first run.  An
    exception leaves the loop at once. *)
Fixpoint run_scenarios (agent : nat → string → agent_outcome) (n : nat)
    (scenarios : list string) (last : option agent_history)
    (st : run_state) : exn + (option agent_history * run_state) :=
  match scenarios with
  | scenario :: rest =>
      match agent n scenario with
      | Raises e => inl e
      | Returns h =>
          match process_history st h with
          | (st', None) => run_scenarios agent (S n) rest (Some h) st'
          | (_, Some e) => inl e
          end
      end
  | [] => inr (last, st)
  end.

(** ** The execution record builder and the handler (lines 245-257, 345) *)

Definition build_record (h : agent_history) (st : run_state)
    (ss : session_state) : execution_record :=
  {| rec_urls := urls h;
     rec_action_names := action_names h;
     rec_detailed_actions := all_actions st;
     rec_element_xpaths := element_xpath_map st;
     rec_extracted_content := all_extracted_content st;
     rec_errors := errors h;
     rec_model_actions := model_actions h;
     rec_execution_date :=
       match execution_date ss with Some d => d | None => "Unknown" end |}.

(** The body of the [try]: the session when it is left, and the exception
    that left it, if any.  The record is stored at line 246; what follows
    the store inside the [try], the display code of lines 259-343 and the
    release of the browser context, is the collaborator [display], which
    is given what it shows and may raise.  The browser context is taken to
    open without raising. *)
Definition try_body (agent : nat → string → agent_outcome)
    (display : run_state → agent_history → option exn) (steps : string)
    (ss : session_state) : session_state * option exn :=
  match run_scenarios agent 0 (split_scenarios steps) None initial_state with
  | inl e => (ss, Some e)
  | inr (None, _) => (ss, Some (UnboundLocalError "history"))
  | inr (Some h, st) =>
      ({| history := Some (build_record h st ss);
          execution_date := execution_date ss |},
       display st h)
  end.

(** [execute_test]: the session afterwards and the error shown, if any;
    the handler of line 345 only shows the error. *)
Definition execute_test (agent : nat → string → agent_outcome)
    (display : run_state → agent_history → option exn) (steps : string)
    (ss : session_state) : session_state * option exn :=
  try_body agent display steps ss.

(** ** Notions used to state the properties *)

(** The variable [history] after the loop over the returned histories
    [hs], when it held [last] before. *)
Definition last_history (hs : list agent_history)
    (last0 : option agent_history) : option agent_history :=
  match last hs with Some h => Some h | None => last0 end.


(** Some line of [steps], once stripped, starts with [Scenario:]. *)
Definition has_scenario_line (steps : string) : bool :=
  existsb (λ line, Text.startswith "Scenario:" (Text.strip line))
    (Text.split_lines steps).

(** The value the log of assignments gives to key [k]: that of the last
    assignment to [k], whatever its place. *)
Fixpoint last_write (k : elem_index)
    (log : list (channel * elem_index * string)) : option string :=
  match log with
  | (_, k', v) :: rest =>
      match last_write k rest with
      | Some later => Some later
      | None => if decide (k = k') then Some v else None
      end
  | [] => None
  end.

(** The map is what its log of assignments says. *)
Definition map_follows_log (st : run_state) : Prop :=
  ∀ k, element_xpath_map st !! k = last_write k (xpath_writes st).

(** Every key of the map of [st0] is a key of the map of [st]. *)
Definition keeps_keys (st0 st : run_state) : Prop :=
  dom (element_xpath_map st0) ⊆ dom (element_xpath_map st).

(** How many of the three interaction keys an entry carries. *)
Definition interaction_key_count (a : action_data) : nat :=
  length (filter (λ e : option action_params, is_Some e)
            (interaction_entries a)).

(** The entry names one action: it is a discovery entry, or it carries at
    most one of the interaction keys. *)
Definition single_action (a : action_data) : Prop :=
  is_Some (get_xpath_of_element a) ∨ interaction_key_count a ≤ 1.

(** The agent returns the histories [hs], one per scenario, from run
    number [n] on. *)
Fixpoint agent_returns (agent : nat → string → agent_outcome) (n : nat)
    (scenarios : list string) (hs : list agent_history) : Prop :=
  match scenarios, hs with
  | scenario :: rest, h :: hs' =>
      agent n scenario = Returns h ∧ agent_returns agent (S n) rest hs'
  | [], [] => True
  | _, _ => False
  end.

(** The two shapes the specification gives to an agent's result. *)
Definition bare_string (r : pyvalue) : bool :=
  match r with PyStr _ => true | _ => false end.

Definition structured (r : pyvalue) : bool :=
  match r with PyDict _ => true | _ => false end.

(** The names and the indices the loop of line 131 gives to the entries of
    one history. *)
Definition scenario_names (h : agent_history) : list string :=
  map (action_name_at h) (seq 0 (length (model_actions h))).

Definition scenario_indices (h : agent_history) : list nat :=
  seq 0 (length (model_actions h)).

Definition scenario_labels (h : agent_history) : list (string * nat) :=
  map (λ j, (action_name_at h j, j)) (seq 0 (length (model_actions h))).

(** The name and the index of each record made so far. *)
Definition labels (st : run_state) : list (string * nat) :=
  map (λ r, (ad_name r, ad_index r)) (all_actions st).

(** The session afterwards. *)
Definition session_after (agent : nat → string → agent_outcome)
    (display : run_state → agent_history → option exn) (steps : string)
    (ss : session_state) : session_state :=
  (execute_test agent display steps ss).1.

(** The exception the content pass raises on an item, if any: the item
    is a text with the xpath phrase and with ["element "] followed by a
    run of more than 4300 digits. *)
Definition content_error (content : pyvalue) : option exn :=
  match content with
  | PyStr text =>
      match Text.search Text.match_xpath_phrase text,
            Text.search Text.match_element_index text with
      | Some _, Some digits =>
          if String.length digits <=? Text.int_max_str_digits then None
          else Some (ValueError (String.length digits))
      | _, _ => None
      end
  | _ => None
  end.

(** No extracted-content item of the history makes line 242 raise. *)
Definition clean_history (h : agent_history) : Prop :=
  Forall (λ c, content_error c = None) (extracted_content h).

(** The accumulators after the histories [hs], from [st] on. *)
Definition state_after (hs : list agent_history) (st : run_state)
  : run_state :=
  fold_left (λ st h, (process_history st h).1) hs st.

(** A display that goes through, and one that raises. *)
Definition quiet_display (st : run_state) (h : agent_history)
  : option exn := None.

Definition failing_display (st : run_state) (h : agent_history)
  : option exn := Some (DisplayError "No module named 'pandas'").

(** The extracted-content item of the specification's example. *)
Definition button_item : string :=
  "The xpath of the element is //button[2], found near element 5".

(** Sample inputs. *)
Definition navigate_entry : action_data :=
  {| get_xpath_of_element := None; input_text := None; click_element := None;
     perform_element_action := None;
     interacted_element := Some (ElemObject "DOMHistoryElement(xpath='a')") |}.

Definition no_history : agent_history :=
  {| final_result := PyNone; model_actions := []; action_names := [];
     urls := []; extracted_content := []; errors := [] |}.

Definition discover (k : Z) (description : string) : action_data :=
  {| get_xpath_of_element := Some {| param_index := Some (IntIndex k) |};
     input_text := None; click_element := None;
     perform_element_action := None;
     interacted_element := Some (ElemObject description) |}.

Definition click (k : Z) (e : option element_info) : action_data :=
  {| get_xpath_of_element := None; input_text := None;
     click_element := Some {| param_index := Some (IntIndex k) |};
     perform_element_action := None; interacted_element := e |}.

(** An entry with two interaction keys. *)
Definition type_and_click : action_data :=
  {| get_xpath_of_element := None;
     input_text := Some {| param_index := Some (IntIndex 7) |};
     click_element := Some {| param_index := Some (IntIndex 8) |};
     perform_element_action := None;
     interacted_element := Some ElemNone |}.

Definition div_element : string :=
  "DOMHistoryElement(tag='div', xpath='//div[@id=1]', n=7)".

Definition two_key_history : agent_history :=
  {| final_result := PyStr "done";
     model_actions := [discover 7 div_element; type_and_click];
     action_names := ["get_xpath_of_element"; "input_text"];
     urls := []; extracted_content := []; errors := [] |}.

Definition two_scenarios : string :=
  "Feature: Login" +:+ String Text.newline "Scenario: A" +:+
  String Text.newline "  Given a page" +:+
  String Text.newline "Scenario: B" +:+ String Text.newline "  Then done".

Definition earlier_record : execution_record :=
  {| rec_urls := ["https://example.org"]; rec_action_names := ["go_to_url"];
     rec_detailed_actions := []; rec_element_xpaths := ∅;
     rec_extracted_content := []; rec_errors := []; rec_model_actions := [];
     rec_execution_date := "October 31, 2026" |}.

Definition used_session : session_state :=
  {| history := Some earlier_record;
     execution_date := Some "November 03, 2026" |}.

Definition fresh_session : session_state :=
  {| history := None; execution_date := Some "November 03, 2026" |}.

Definition sample_history : agent_history :=
  {| final_result := PyStr "Login succeeded";
     model_actions :=
       [discover 7 div_element; click 7 None;
        click 7 (Some (ElemObject "DOMHistoryElement(xpath='//p')"))];
     action_names := ["get_xpath_of_element"; "click_element"];
     urls := ["https://example.org/login"];
     extracted_content := [PyStr button_item; PyNone];
     errors := [PyNone] |}.

(** An agent that returns for both scenarios. *)
Definition steady_agent (n : nat) (task : string) : agent_outcome :=
  match n with
  | 0 => Returns sample_history
  | _ => Returns two_key_history
  end.

(** An agent that raises in the second scenario. *)
Definition flaky_agent (n : nat) (task : string) : agent_outcome :=
  match n with
  | 0 => Returns sample_history
  | _ => Raises (AgentError "browser closed")
  end.

(** ** The splitter, seen on lists of lines *)

(** The test of line 87. *)
Definition scenario_line (line : string) : bool :=
  Text.startswith "Scenario:" (Text.strip line).

(** The loop of [split_scenarios] with the blocks kept as lists of lines,
    not yet joined. *)
Definition group_step (acc : list (list string) * list string)
    (line : string) : list (list string) * list string :=
  let '(groups, current) := acc in
  if scenario_line line then
    ((if truthy_list current then groups ++ [current] else groups), [line])
  else if truthy_list current then (groups, current ++ [line])
  else (groups, current).

Definition close_groups (acc : list (list string) * list string)
  : list (list string) :=
  let '(groups, current) := acc in
  if truthy_list current then groups ++ [current] else groups.

Definition scenario_groups (lines : list string) : list (list string) :=
  close_groups (fold_left group_step lines ([], [])).

(** A block: a [Scenario:] line and the lines that follow it, none of
    which is a [Scenario:] line. *)
Definition scenario_group (g : list string) : Prop :=
  ∃ line rest, g = line :: rest ∧ scenario_line line = true
               ∧ Forall (λ l, scenario_line l = false) rest.

(** The lines from the first [Scenario:] line on. *)
Fixpoint drop_preamble (lines : list string) : list string :=
  match lines with
  | line :: rest => if scenario_line line then lines else drop_preamble rest
  | [] => []
  end.

Fixpoint newline_free (s : string) : bool :=
  match s with
  | String c s' => negb (Ascii.eqb c Text.newline) && newline_free s'
  | EmptyString => true
  end.

(** ** Notions for the resolver *)

(** The parameter dictionaries of the interaction keys an entry carries,
    in the order the loop of line 182 visits them. *)
Definition present_params (a : action_data) : list action_params :=
  omap id (interaction_entries a).

(** The element indices an entry names. *)
Definition named_indices (a : action_data) : list elem_index :=
  match get_xpath_of_element a with
  | Some p => [discovery_index p]
  | None => omap param_index (present_params a)
  end.

(** The entry has no true description in which [xpath='] occurs. *)
Definition no_xpath_in_description (a : action_data) : Prop :=
  ∀ e, interacted_element a = Some e → truthy_element e = true →
       ¬ Text.contains "xpath='" (str_element e).


(** Every record that carries an [xpath] carries an index that is a key
    of the map. *)
Definition xpaths_have_keys (records : list action_detail)
    (m : gmap elem_index string) : Prop :=
  ∀ r x, r ∈ records → ed_xpath (ad_element_details r) = Some x →
         ∃ k, ed_index (ad_element_details r) = Some k ∧ is_Some (m !! k).

Definition records_have_keys (st : run_state) : Prop :=
  xpaths_have_keys (all_actions st) (element_xpath_map st).

(** An entry whose only interaction key has no [index] parameter. *)
Definition scroll_to_text : action_data :=
  {| get_xpath_of_element := None; input_text := None;
     click_element := None;
     perform_element_action := Some {| param_index := None |};
     interacted_element := Some (ElemObject "DOMHistoryElement(xpath='//p')") |}.


(** ** Code generation: the tables and the file name (lines 50-65, 732-763) *)

(** The five generator functions imported at lines 18-25. *)
Inductive generator_id : Type :=
| generate_selenium_pytest_bdd
| generate_playwright_python
| generate_cypress_js
| generate_robot_framework
| generate_java_selenium.

(** The dictionary literals of lines 50-56 and 59-65, in source order. *)
Definition FRAMEWORK_GENERATORS : list (string * generator_id) :=
  [("Selenium + PyTest BDD (Python)", generate_selenium_pytest_bdd);
   ("Playwright (Python)", generate_playwright_python);
   ("Cypress (JavaScript)", generate_cypress_js);
   ("Robot Framework", generate_robot_framework);
   ("Selenium + Cucumber (Java)", generate_java_selenium)].

Definition FRAMEWORK_EXTENSIONS : list (string * string) :=
  [("Selenium + PyTest BDD (Python)", "py");
   ("Playwright (Python)", "py");
   ("Cypress (JavaScript)", "js");
   ("Robot Framework", "robot");
   ("Selenium + Cucumber (Java)", "java")].

(** [d[key]]: [None] stands for the [KeyError]. *)
Fixpoint dict_get {V} (d : list (string * V)) (key : string) : option V :=
  match d with
  | (k, v) :: rest => if String.eqb k key then Some v else dict_get rest key
  | [] => None
  end.

(** [list(d.keys())] *)
Definition dict_keys {V} (d : list (string * V)) : list string := map fst d.

(** Lines 733-739. *)
Definition code_language (selected_framework : string) : string :=
  if String.eqb selected_framework "Cypress (JavaScript)" then "javascript"
  else if String.eqb selected_framework "Robot Framework" then "robot"
  else if String.eqb selected_framework "Selenium + Cucumber (Java)"
       then "java"
  else "python".

(** What follows [Feature:] in the pattern [Feature:\s*(.+?)(?:\n|$)],
    anchored at the start of [r]; the result is group 1.  The greedy [\s*]
    first takes the whitespace character in front, newlines included, and
    gives it back only when nothing matches after it; the group then runs
    over the characters up to the next newline or the end of the text, and
    needs one at least. *)
Fixpoint feature_title (r : string) : option string :=
  match r with
  | String c r' =>
      if Text.isspace c then
        match feature_title r' with
        | Some title => Some title
        | None =>
            if Ascii.eqb c Text.newline then None
            else Some (Text.span (λ c, negb (Ascii.eqb c Text.newline)) r).1
        end
      else Some (Text.span (λ c, negb (Ascii.eqb c Text.newline)) r).1
  | EmptyString => None
  end.

Definition match_feature (s : string) : option string :=
  match Text.strip_prefix "Feature:" s with
  | Some r => feature_title r
  | None => None
  end.

(** [c.lower()] for a code point below 256: the letters A-Z and the
    capital letters from 192 to 222, the sign 215 apart, move up by 32. *)
Definition lower_char (c : ascii) : ascii :=
  let n := N_of_ascii c in
  if ((65 <=? n) && (n <=? 90)
      || (192 <=? n) && (n <=? 222) && negb (n =? 215))%N
  then ascii_of_N (n + 32)
  else c.

(** [s.lower()] *)
Fixpoint lower (s : string) : string :=
  match s with
  | String c s' => String (lower_char c) (lower s')
  | EmptyString => EmptyString
  end.

(** [s.replace(" ", "_")] *)
Fixpoint replace_spaces (s : string) : string :=
  match s with
  | String c s' =>
      String (if Ascii.eqb c " " then "_"%char else c) (replace_spaces s')
  | EmptyString => EmptyString
  end.

(** Lines 745-752. *)
Definition feature_name (steps : string) : string :=
  match Text.search match_feature steps with
  | Some title => lower (replace_spaces (Text.strip title))
  | None => "automated_test"
  end.

(** Every character of [s] satisfies [f]. *)
Fixpoint string_forall (f : ascii → bool) (s : string) : bool :=
  match s with
  | String c s' => f c && string_forall f s'
  | EmptyString => true
  end.

(** What a file-name stem made by [feature_name] is made of: no space, no
    newline, and nothing that [lower] would change. *)
Definition stem_char (c : ascii) : bool :=
  negb (Ascii.eqb c " ") && negb (Ascii.eqb c Text.newline)
  && Ascii.eqb (lower_char c) c.

(** ** The application state and the sections of [main] (lines 594-776) *)

(** The session keys [main] and [execute_test] write. *)
Record app_state : Type := {
  generated_steps : option string;
  test_session : session_state;
  automation_code : option string;
}.

Inductive codegen_error : Type :=
| KeyError (key : string)
| GeneratorError (msg : string).

(** What the code generation section shows. *)
Inductive codegen_outcome : Type :=
| MissingPriorState
| CodegenFailed (e : codegen_error)
| Download (data language file_name : string).

(** What [qa_agent.run(prompt)] does. *)
Inductive qa_outcome : Type :=
| QaRaises (msg : string)
| QaReturns (content : string).

(** One run of the script: what the widgets return and what the
    collaborators answer.  [qa_agent_run], [browser_agent] and
    [show_results], the display of [execute_test], take the number, 0 or
    1, of the section that calls them. *)
Record rerun : Type := {
  user_story : string;
  generate_btn : bool;
  edit_btn : bool;
  execute_btn : bool;
  generate_code_btn : bool;
  selected_framework : string;
  qa_agent_run : nat → string → qa_outcome;
  text_area : string → string;
  today : string;
  browser_agent : nat → nat → string → agent_outcome;
  show_results : nat → run_state → agent_history → option exn;
  generator : generator_id → string → execution_record
              → codegen_error + string;
}.

Definition set_steps (steps : string) (app : app_state) : app_state :=
  {| generated_steps := Some steps; test_session := test_session app;
     automation_code := automation_code app |}.

Definition set_session (ss : session_state) (app : app_state) : app_state :=
  {| generated_steps := generated_steps app; test_session := ss;
     automation_code := automation_code app |}.

Definition set_code (code : string) (app : app_state) : app_state :=
  {| generated_steps := generated_steps app;
     test_session := test_session app; automation_code := Some code |}.

(** The truth value of a [str]. *)
Definition truthy_str (s : string) : bool :=
  match s with EmptyString => false | String _ _ => true end.

(** Lines 594-601 ([section] 0) and 649-656 ([section] 1): the new state,
    and the message of the exception that left the script, if any. *)
Definition generation_section (section : nat) (r : rerun) (app : app_state)
  : app_state * option string :=
  if generate_btn r && truthy_str (user_story r) then
    match qa_agent_run r section (user_story r) with
    | QaReturns generated => (set_steps generated app, None)
    | QaRaises msg => (app, Some msg)
    end
  else (app, None).

(** Lines 636-646. *)
Definition early_execute_section (r : rerun) (app : app_state) : app_state :=
  if execute_btn r then
    match generated_steps app with
    | None => app
    | Some current_steps =>
        set_session
          (execute_test (browser_agent r 0) (show_results r 0)
             current_steps (test_session app)).1 app
    end
  else app.

(** Lines 659-677. *)
Definition editor_section (r : rerun) (app : app_state) : app_state :=
  match generated_steps app with
  | Some shown => set_steps (text_area r shown) app
  | None => app
  end.

(** Lines 689-697. *)
Definition execute_section (r : rerun) (app : app_state) : app_state :=
  if execute_btn r then
    match generated_steps app with
    | None => app
    | Some steps =>
        set_session
          (execute_test (browser_agent r 1) (show_results r 1) steps
             {| history := history (test_session app);
                execution_date := Some (today r) |}).1 app
    end
  else app.

(** Lines 700-776, the body of [if generate_code_btn]. *)
Definition code_generation_section (r : rerun) (app : app_state)
  : app_state * codegen_outcome :=
  match generated_steps app, history (test_session app) with
  | Some steps, Some record =>
      match dict_get FRAMEWORK_GENERATORS (selected_framework r) with
      | None => (app, CodegenFailed (KeyError (selected_framework r)))
      | Some generator_function =>
          match generator r generator_function steps record with
          | inl e => (app, CodegenFailed e)
          | inr code =>
              let app := set_code code app in
              match dict_get FRAMEWORK_EXTENSIONS (selected_framework r) with
              | None => (app, CodegenFailed (KeyError (selected_framework r)))
              | Some file_ext =>
                  (app,
                   Download code (code_language (selected_framework r))
                     (feature_name steps +:+ "_automation." +:+ file_ext))
              end
          end
      end
  | _, _ => (app, MissingPriorState)
  end.

(** What one run of the script leaves: the state, the message of an
    exception that left the script, and what code generation showed. *)
Record main_result : Type := {
  final_state : app_state;
  uncaught : option string;
  codegen : option codegen_outcome;
}.

(** Lines 594-776, the sections in the order of the script. *)
Definition main_body (r : rerun) (app : app_state) : main_result :=
  match generation_section 0 r app with
  | (app, Some msg) =>
      {| final_state := app; uncaught := Some msg; codegen := None |}
  | (app, None) =>
      let app := early_execute_section r app in
      match generation_section 1 r app with
      | (app, Some msg) =>
          {| final_state := app; uncaught := Some msg; codegen := None |}
      | (app, None) =>
          let app := editor_section r app in
          let app := execute_section r app in
          if generate_code_btn r then
            let '(app, shown) := code_generation_section r app in
            {| final_state := app; uncaught := None; codegen := Some shown |}
          else {| final_state := app; uncaught := None; codegen := None |}
      end
  end.

(** The extension and highlighting language that go together. *)
Definition extension_languages : list (string * string) :=
  [("py", "python"); ("js", "javascript"); ("robot", "robot");
   ("java", "java")].

(** Sample runs of the script. *)
Definition idle_run : rerun :=
  {| user_story := ""; generate_btn := false; edit_btn := false;
     execute_btn := false; generate_code_btn := false;
     selected_framework := "Robot Framework";
     qa_agent_run := λ _ _, QaRaises "offline";
     text_area := λ shown, shown;
     today := "November 03, 2026";
     browser_agent := λ _, steady_agent;
     show_results := λ _, quiet_display;
     generator := λ _ _ _, inr "*** Test Cases ***" |}.

Definition press_execute (r : rerun) : rerun :=
  {| user_story := user_story r; generate_btn := false;
     edit_btn := false; execute_btn := true; generate_code_btn := false;
     selected_framework := selected_framework r;
     qa_agent_run := qa_agent_run r; text_area := text_area r;
     today := today r; browser_agent := browser_agent r;
     show_results := show_results r; generator := generator r |}.

Definition press_generate_code (r : rerun) : rerun :=
  {| user_story := user_story r; generate_btn := false;
     edit_btn := false; execute_btn := false; generate_code_btn := true;
     selected_framework := selected_framework r;
     qa_agent_run := qa_agent_run r; text_area := text_area r;
     today := today r; browser_agent := browser_agent r;
     show_results := show_results r; generator := generator r |}.

(** Generate is pressed with a story; the model answers twice. *)
Definition press_generate : rerun :=
  {| user_story := "As a user I log in"; generate_btn := true;
     edit_btn := false; execute_btn := false; generate_code_btn := false;
     selected_framework := "Robot Framework";
     qa_agent_run := λ section _,
       match section with
       | 0 => QaReturns "Scenario: first answer"
       | _ => QaReturns "Scenario: second answer"
       end;
     text_area := λ shown, shown;
     today := "November 03, 2026";
     browser_agent := λ _, steady_agent;
     show_results := λ _, quiet_display;
     generator := λ _ _ _, inr "*** Test Cases ***" |}.

(** Execute is pressed; the first run returns, the second one raises. *)
Definition second_run_fails : rerun :=
  {| user_story := ""; generate_btn := false; edit_btn := false;
     execute_btn := true; generate_code_btn := false;
     selected_framework := "Robot Framework";
     qa_agent_run := λ _ _, QaRaises "offline";
     text_area := λ shown, shown;
     today := "November 03, 2026";
     browser_agent := λ section,
       match section with 0 => steady_agent | _ => flaky_agent end;
     show_results := λ _, failing_display;
     generator := λ _ _ _, inr "*** Test Cases ***" |}.

Definition empty_app : app_state :=
  {| generated_steps := None;
     test_session := {| history := None; execution_date := None |};
     automation_code := None |}.

Definition ready_app : app_state :=
  {| generated_steps := Some two_scenarios;
     test_session := {| history := None; execution_date := None |};
     automation_code := None |}.

Definition tested_app : app_state :=
  {| generated_steps := Some two_scenarios; test_session := used_session;
     automation_code := None |}.





(** * Properties *)

(** ** Facts about the text primitives *)

Module TextFacts.
Import Text.

Lemma app_nil (s : string) : EmptyString +:+ s = s.
Proof. reflexivity. Qed.

Lemma app_cons (c : ascii) (a b : string) :
  String c a +:+ b = String c (a +:+ b).
Proof. reflexivity. Qed.

Lemma app_assoc (a b c : string) : (a +:+ b) +:+ c = a +:+ b +:+ c.
Proof.
  induction a as [|x a IH]; [done |]. by rewrite !app_cons, IH.
Qed.

Lemma strip_prefix_Some (p s r : string) :
  strip_prefix p s = Some r → s = p +:+ r.
Proof.
  revert s. induction p as [|a p IH]; intros s.
  - destruct s; simpl; intros [= <-]; by rewrite app_nil.
  - destruct s as [|b s]; simpl; [done |].
    destruct (Ascii.eqb_spec a b) as [->|]; [|done].
    intros H. by rewrite app_cons, <- (IH _ H).
Qed.

Lemma strip_prefix_app (p r : string) : strip_prefix p (p +:+ r) = Some r.
Proof.
  induction p as [|a p IH]; [by destruct r |].
  rewrite app_cons. simpl. by rewrite Ascii.eqb_refl.
Qed.

Lemma contains_app_l (t pre s : string) :
  contains t s → contains t (pre +:+ s).
Proof.
  intros (u & v & ->). exists (pre +:+ u), v. by rewrite app_assoc.
Qed.

Lemma contains_prefix (t r : string) : contains t (t +:+ r).
Proof. by exists EmptyString, r. Qed.

(** A successful search matched at some suffix. *)
Lemma search_Some {A} (m : string → option A) (s : string) (r : A) :
  search m s = Some r → ∃ pre post, s = pre +:+ post ∧ m post = Some r.
Proof.
  induction s as [|c s IH]; simpl.
  - destruct (m EmptyString) eqn:E; [|done].
    intros [= <-]. by exists EmptyString, EmptyString.
  - destruct (m (String c s)) eqn:E.
    + intros [= <-]. by exists EmptyString, (String c s).
    + intros H. destruct (IH H) as (pre & post & -> & Hm).
      by exists (String c pre), post.
Qed.

(** The search skips a prefix at none of whose positions the matcher
    succeeds. *)
Lemma search_skip {A} (m : string → option A) (pre s : string) :
  (∀ u v, pre = u +:+ v → v ≠ EmptyString → m (v +:+ s) = None) →
  search m (pre +:+ s) = search m s.
Proof.
  induction pre as [|c pre IH]; intros Hno; [done |].
  rewrite app_cons. cbn [search]. rewrite <- app_cons.
  rewrite (Hno EmptyString (String c pre) eq_refl); [|done].
  apply IH. intros u v -> Hv. by apply (Hno (String c u) v).
Qed.

Lemma search_here {A} (m : string → option A) (s : string) (r : A) :
  m s = Some r → search m s = Some r.
Proof. intros H. destruct s; simpl; by rewrite H. Qed.

(** What [span] returns on a run closed by a character outside it. *)
Lemma span_run (f : ascii → bool) (v rest : string) (q : ascii) :
  (∀ pre c post, v = pre +:+ String c post → f c = true) →
  f q = false →
  span f (v +:+ String q rest) = (v, String q rest).
Proof.
  intros Hv Hq. induction v as [|c v IH].
  - rewrite app_nil. simpl. by rewrite Hq.
  - rewrite app_cons. simpl.
    rewrite (Hv EmptyString c v eq_refl), IH; [done |].
    intros pre c' post ->. by apply (Hv (String c pre) c' post).
Qed.

Lemma span_app (f : ascii → bool) (s run rest : string) :
  span f s = (run, rest) → s = run +:+ rest.
Proof.
  revert run rest. induction s as [|c s IH]; simpl; intros run rest.
  - by intros [= <- <-].
  - destruct (f c); [|by intros [= <- <-]].
    destruct (span f s) as [run' rest'] eqn:E. intros [= <- <-].
    by rewrite app_cons, (IH _ _ eq_refl).
Qed.

Lemma span_head (f : ascii → bool) (s v rest : string) (c : ascii) :
  span f s = (String c v, rest) → f c = true.
Proof.
  destruct s as [|c' s]; simpl; [done |].
  destruct (f c') eqn:E; [|done].
  destruct (span f s). by intros [= <- _ _].
Qed.

(** No phrase, no match of the first pattern of the content pass. *)
Lemma xpath_phrase_absent (text : string) :
  ¬ contains "The xpath of the element is " text →
  search match_xpath_phrase text = None.
Proof.
  intros Hno. destruct (search match_xpath_phrase text) as [x|] eqn:E;
    [|done].
  destruct (search_Some _ _ _ E) as (pre & post & -> & Hm).
  unfold match_xpath_phrase in Hm.
  destruct (strip_prefix _ post) as [r|] eqn:Hp; [|done].
  apply strip_prefix_Some in Hp as ->.
  destruct Hno. apply contains_app_l, contains_prefix.
Qed.

(** No ["element "] followed by a digit, no match of the second one. *)
Lemma element_index_absent (text : string) :
  (∀ d, isdigit d = true →
        ¬ contains ("element " +:+ String d EmptyString) text) →
  search match_element_index text = None.
Proof.
  intros Hno. destruct (search match_element_index text) as [x|] eqn:E;
    [|done].
  destruct (search_Some _ _ _ E) as (pre & post & -> & Hm).
  unfold match_element_index in Hm.
  destruct (strip_prefix _ post) as [r|] eqn:Hp; [|done].
  apply strip_prefix_Some in Hp as ->.
  destruct (span isdigit r) as [[|c v] rest] eqn:Hs; [done |].
  destruct (Hno c (span_head _ _ _ _ _ Hs)).
  apply span_app in Hs as ->.
  apply contains_app_l. exists EmptyString, (v +:+ rest).
  by rewrite app_nil, app_assoc.
Qed.

Ltac split_eqb E :=
  repeat (cbn [strip_prefix] in E;
          match type of E with
          | context [Ascii.eqb ?x ?y] =>
              destruct (Ascii.eqb_spec x y);
              [first [discriminate | subst] | try done]
          end).

(** The literal [xpath='] cannot begin inside a text free of it and end
    inside a following copy of itself. *)
Lemma xpath_attr_no_straddle (v t : string) :
  v ≠ EmptyString → ¬ contains "xpath='" v →
  strip_prefix "xpath='" (v +:+ "xpath='" +:+ t) = None.
Proof.
  intros Hv Hno.
  destruct (strip_prefix "xpath='" (v +:+ "xpath='" +:+ t)) as [r|] eqn:E;
    [exfalso | done].
  destruct v as [|c1 v]; [done |].
  do 6 (destruct v as [|? v];
        [rewrite ?app_cons, ?app_nil in E; split_eqb E; done |]).
  rewrite ?app_cons in E. split_eqb E.
  apply Hno. by exists EmptyString, v.
Qed.

(** The attribute pattern finds the value of the first [xpath='...']. *)
Lemma search_xpath_attr_first (pre V post : string) :
  V ≠ EmptyString → ¬ contains "'" V → ¬ contains "xpath='" pre →
  search match_xpath_attr (pre +:+ "xpath='" +:+ V +:+ "'" +:+ post)
  = Some V.
Proof.
  intros HV Hq Hpre. rewrite search_skip.
  - apply search_here. unfold match_xpath_attr.
    rewrite strip_prefix_app.
    change ("'" +:+ post) with (String quote post).
    rewrite span_run.
    + destruct V; [done |]. by rewrite Ascii.eqb_refl.
    + intros u c w ->. destruct (Ascii.eqb_spec c quote) as [->|]; [|done].
      destruct Hq. by exists u, w.
    + by rewrite Ascii.eqb_refl.
  - intros u v -> Hv. unfold match_xpath_attr.
    rewrite xpath_attr_no_straddle; [done.. |].
    intros Hc. apply Hpre. by apply contains_app_l.
Qed.

(** Occurrence is decided by a search for the literal. *)
Lemma contains_search (t s : string) :
  contains t s ↔ is_Some (search (strip_prefix t) s).
Proof.
  split.
  - intros (pre & post & ->). induction pre as [|c pre IH].
    + rewrite app_nil.
      rewrite (search_here _ _ post (strip_prefix_app t post)). by eexists.
    + rewrite app_cons. cbn [search].
      by destruct (strip_prefix t (String c (pre +:+ t +:+ post))).
  - intros [r Hr]. destruct (search_Some _ _ _ Hr) as (pre & post & -> & Hm).
    apply strip_prefix_Some in Hm as ->. by exists pre, r.
Qed.

Lemma not_contains (t s : string) :
  search (strip_prefix t) s = None → ¬ contains t s.
Proof. intros H [r Hr]%contains_search. congruence. Qed.

End TextFacts.

(** ** The scenario splitter *)

Lemma split_loop_idle (lines : list string) :
  existsb (λ line, Text.startswith "Scenario:" (Text.strip line)) lines
    = false →
  fold_left split_step lines ([], []) = ([], []).
Proof.
  induction lines as [|line lines IH]; simpl; [done |].
  intros [Hl Hr]%orb_false_iff. rewrite Hl. by apply IH.
Qed.

(** C1, as the code has it: a text none of whose lines, once stripped,
    starts with [Scenario:] is split into no block at all; the lines before
    the first [Scenario:] line are dropped. *)
Theorem split_no_scenario_line (steps : string) :
  has_scenario_line steps = false → split_scenarios steps = [].
Proof.
  intros H. unfold split_scenarios. by rewrite (split_loop_idle _ H).
Qed.

Lemma split_no_scenario_line_witness :
  has_scenario_line "Feature: Login" = false
  ∧ split_scenarios "Feature: Login" = [].
Proof.
  split; [reflexivity | apply (split_no_scenario_line "Feature: Login")].
  reflexivity.
Defined.

(** C1 as stated fails: a text without [Scenario:] line is not returned
    as one block. *)
Lemma split_no_scenario_line_not_one_block :
  let steps := "Feature: Login" +:+ String Text.newline "  Given a page" in
  has_scenario_line steps = false ∧ split_scenarios steps ≠ [steps].
Proof. split; [reflexivity | vm_compute; discriminate]. Qed.

Example split_two :
  split_scenarios
    ("Scenario: A" +:+ String Text.newline "step1" +:+
     String Text.newline "Scenario: B" +:+ String Text.newline "step2")
  = ["Scenario: A" +:+ String Text.newline "step1";
     "Scenario: B" +:+ String Text.newline "step2"].
Proof. reflexivity. Qed.

(** ** The pass over the extracted content *)

Lemma content_no_phrase (st : run_state) (text : string) :
  Text.search Text.match_xpath_phrase text = None
  ∨ Text.search Text.match_element_index text = None →
  element_xpath_map (process_content st (PyStr text)).1
  = element_xpath_map st.
Proof.
  unfold process_content. intros [H|H]; rewrite H; [done |].
  by destruct (Text.search Text.match_xpath_phrase text).
Qed.

(** C2, as the code has it: for the item of the example the pass adds
    exactly the entry for index 5, whose value is the rest of the line
    after the phrase; an item lacking the xpath phrase, or lacking
    ["element "] followed by a digit, adds no entry. *)
Theorem content_pass_entry :
  (∀ st : run_state,
     element_xpath_map (process_content st (PyStr button_item)).1
     = <[IntIndex 5 := "//button[2], found near element 5"]>
         (element_xpath_map st))
  ∧ (∀ (st : run_state) (text : string),
       ¬ Text.contains "The xpath of the element is " text
       ∨ (∀ d, Text.isdigit d = true →
               ¬ Text.contains ("element " +:+ String d EmptyString) text) →
       element_xpath_map (process_content st (PyStr text)).1
       = element_xpath_map st).
Proof.
  split.
  - intros st. reflexivity.
  - intros st text [H|H]; apply content_no_phrase.
    + left. by apply TextFacts.xpath_phrase_absent.
    + right. by apply TextFacts.element_index_absent.
Qed.

Lemma content_pass_entry_witness :
  ¬ Text.contains "The xpath of the element is " "Clicked element 5"
  ∧ element_xpath_map
      (process_content initial_state (PyStr "Clicked element 5")).1
    = element_xpath_map initial_state.
Proof.
  assert (H : ¬ Text.contains "The xpath of the element is "
                "Clicked element 5")
    by (apply TextFacts.not_contains; reflexivity).
  split; [exact H |].
  apply (proj2 content_pass_entry initial_state "Clicked element 5").
  left. exact H.
Defined.

(** C2 as stated fails: the value stored for index 5 is not
    [//button[2]]. *)
Lemma content_pass_entry_not_button :
  element_xpath_map (process_content initial_state (PyStr button_item)).1
  ≠ <[IntIndex 5 := "//button[2]"]> (element_xpath_map initial_state).
Proof.
  intros H. apply (f_equal (λ m, m !! IntIndex 5)) in H.
  vm_compute in H. discriminate.
Qed.

(** ** The element resolver *)

(** C9: an entry that is neither a discovery entry nor an interaction
    entry gives a record with its name, its index and empty
    [element_details]; nothing else of the state changes. *)
Theorem other_action_record (h : agent_history) (i : nat) (a : action_data)
    (st : run_state) :
  get_xpath_of_element a = None →
  input_text a = None → click_element a = None →
  perform_element_action a = None →
  process_action h i a st
  = append_action
      {| ad_name := action_name_at h i; ad_index := i;
         ad_element_details := {| ed_index := None; ed_xpath := None |} |}
      st.
Proof.
  intros H1 H2 H3 H4. unfold process_action, resolve_action, interaction_entries.
  by rewrite H1, H2, H3, H4.
Qed.

Lemma other_action_record_witness :
  all_actions (process_action no_history 3 navigate_entry initial_state)
  = [{| ad_name := "Unknown Action"; ad_index := 3;
        ad_element_details := {| ed_index := None; ed_xpath := None |} |}].
Proof.
  by rewrite (other_action_record no_history 3 navigate_entry initial_state
                eq_refl eq_refl eq_refl eq_refl).
Defined.

(** C8, as the code has it: when the description of a discovery entry is
    true and reads [pre xpath='V' post], with [V] not empty and free of
    quotes and no [xpath='] in [pre], the record gets exactly [V] as
    [xpath] and [(index, V)] is written into the map. *)
Theorem discovery_attaches_xpath (h : agent_history) (i : nat)
    (a : action_data) (st : run_state) (p : action_params)
    (e : element_info) (pre V post : string) :
  get_xpath_of_element a = Some p →
  interacted_element a = Some e →
  truthy_element e = true →
  str_element e = pre +:+ "xpath='" +:+ V +:+ "'" +:+ post →
  V ≠ EmptyString →
  ¬ Text.contains "'" V →
  ¬ Text.contains "xpath='" pre →
  process_action h i a st
  = append_action
      {| ad_name := action_name_at h i; ad_index := i;
         ad_element_details :=
           {| ed_index := Some (discovery_index p); ed_xpath := Some V |} |}
      (assign_xpath Discovery (discovery_index p) V st)
  ∧ element_xpath_map (process_action h i a st) !! discovery_index p
    = Some V.
Proof.
  intros Hp He Ht Hs HV Hq Hpre.
  assert (Hx : interacted_xpath a = Some V).
  { unfold interacted_xpath. rewrite He, Ht, Hs.
    by apply TextFacts.search_xpath_attr_first. }
  assert (Heq : process_action h i a st
    = append_action
        {| ad_name := action_name_at h i; ad_index := i;
           ad_element_details :=
             {| ed_index := Some (discovery_index p); ed_xpath := Some V |} |}
        (assign_xpath Discovery (discovery_index p) V st)).
  { unfold process_action, resolve_action, resolve_discovery.
    by rewrite Hp, Hx. }
  split; [exact Heq |]. rewrite Heq. simpl. apply lookup_insert_eq.
Qed.

Lemma discovery_attaches_xpath_witness :
  element_xpath_map
    (process_action no_history 0
       (discover 7 "DOMHistoryElement(tag='div', xpath='//div[@id=1]', n=7)")
       initial_state) !! IntIndex 7
  = Some "//div[@id=1]".
Proof.
  refine (proj2 (discovery_attaches_xpath no_history 0
    (discover 7 "DOMHistoryElement(tag='div', xpath='//div[@id=1]', n=7)")
    initial_state {| param_index := Some (IntIndex 7) |}
    (ElemObject "DOMHistoryElement(tag='div', xpath='//div[@id=1]', n=7)")
    "DOMHistoryElement(tag='div', " "//div[@id=1]" ", n=7)"
    eq_refl eq_refl eq_refl eq_refl _ _ _)).
  - discriminate.
  - apply TextFacts.not_contains. reflexivity.
  - apply TextFacts.not_contains. reflexivity.
Defined.

(** C8 as stated fails twice: an empty value between the quotes is not
    attached, and of two values it is the first that is attached. *)
Lemma discovery_xpath_not_every_value :
  (Text.contains ("xpath='" +:+ "" +:+ "'") "xpath=''"
   ∧ ¬ Text.contains "'" ""
   ∧ ed_xpath (resolve_action (discover 1 "xpath=''") initial_state).1
     ≠ Some "")
  ∧ (Text.contains ("xpath='" +:+ "//b" +:+ "'") "xpath='//a' xpath='//b'"
     ∧ ¬ Text.contains "'" "//b"
     ∧ ed_xpath
         (resolve_action (discover 1 "xpath='//a' xpath='//b'")
            initial_state).1
       ≠ Some "//b").
Proof.
  repeat split.
  - by exists "", "".
  - apply TextFacts.not_contains. reflexivity.
  - vm_compute. discriminate.
  - by exists "xpath='//a' ", "".
  - apply TextFacts.not_contains. reflexivity.
  - vm_compute. discriminate.
Qed.

Lemma interaction_key_invariant (a : action_data) (st st' : run_state)
    (entry : option action_params) (d : element_details) (x : string) :
  resolve_interaction_key a (no_details, st) entry = (d, st') →
  ed_xpath d = Some x →
  ∃ k, ed_index d = Some k ∧ element_xpath_map st' !! k = Some x.
Proof.
  unfold resolve_interaction_key.
  destruct entry as [[[k|]]|]; simpl; try (intros [= <- <-]; done).
  destruct (element_xpath_map st !! k) as [known|] eqn:E,
    (interacted_xpath a) as [y|]; intros [= <- <-]; simpl; try done;
    intros [= <-]; exists k; by rewrite ?lookup_insert_eq.
Qed.

Lemma resolve_action_invariant (a : action_data) (st st' : run_state)
    (d : element_details) (x : string) :
  single_action a →
  resolve_action a st = (d, st') →
  ed_xpath d = Some x →
  ∃ k, ed_index d = Some k ∧ element_xpath_map st' !! k = Some x.
Proof.
  unfold single_action, resolve_action, interaction_key_count,
    interaction_entries.
  destruct (get_xpath_of_element a) as [p|].
  - intros _. unfold resolve_discovery.
    destruct (interacted_xpath a) as [y|]; intros [= <- <-]; simpl; [|done].
    intros [= <-]. exists (discovery_index p). by rewrite lookup_insert_eq.
  - intros [[? [=]]|Hone].
    destruct (input_text a) as [p1|], (click_element a) as [p2|],
      (perform_element_action a) as [p3|]; simpl in Hone; try lia;
      cbn -[resolve_interaction_key];
      try (intros [= <- <-]; done);
      apply interaction_key_invariant.
Qed.

(** For entries that name one action the invariant holds: when the
    record of a discovery entry, or of an entry with at most one of the
    three interaction keys, is appended with an [xpath], the map holds that
    very value for the record's element index at that moment. *)
Theorem appended_xpath_in_map (h : agent_history) (i : nat)
    (a : action_data) (st : run_state) (r : action_detail) (x : string) :
  single_action a →
  last (all_actions (process_action h i a st)) = Some r →
  ed_xpath (ad_element_details r) = Some x →
  ∃ k, ed_index (ad_element_details r) = Some k
       ∧ element_xpath_map (process_action h i a st) !! k = Some x.
Proof.
  intros Hone. unfold process_action.
  destruct (resolve_action a st) as [d st'] eqn:E. simpl.
  rewrite last_snoc. intros [= <-]. simpl.
  by apply (resolve_action_invariant a st).
Qed.

Lemma appended_xpath_in_map_witness :
  ∃ k, Some (IntIndex 7) = Some k
       ∧ element_xpath_map
           (process_action sample_history 1 (click 7 None)
              (process_action sample_history 0 (discover 7 div_element)
                 initial_state)) !! k
         = Some "//div[@id=1]".
Proof.
  apply (appended_xpath_in_map sample_history 1 (click 7 None)
           (process_action sample_history 0 (discover 7 div_element)
              initial_state)
           {| ad_name := "click_element"; ad_index := 1;
              ad_element_details :=
                {| ed_index := Some (IntIndex 7);
                   ed_xpath := Some "//div[@id=1]" |} |}
           "//div[@id=1]").
  - right. vm_compute. lia.
  - reflexivity.
  - reflexivity.
Defined.

(** C4: the code breaks the invariant on an entry with two interaction
    keys.  The loop of line 182 goes on after the first key: the record
    keeps the [xpath] attached for the first key's index next to the second
    key's index, for which the map holds nothing. *)
Lemma appended_xpath_not_in_map :
  let st := (process_history initial_state two_key_history).1 in
  ∃ r, last (all_actions st) = Some r
       ∧ ed_xpath (ad_element_details r) = Some "//div[@id=1]"
       ∧ ed_index (ad_element_details r) = Some (IntIndex 8)
       ∧ element_xpath_map st !! IntIndex 8 = None.
Proof.
  eexists. split; [reflexivity |]. repeat split; reflexivity.
Qed.

(** ** The map and its assignments *)

Section Preservation.

Variable P : run_state → Prop.
Hypothesis P_assign : ∀ c k v st, P st → P (assign_xpath c k v st).
Hypothesis P_action : ∀ r st, P st → P (append_action r st).
Hypothesis P_content : ∀ c st, P st → P (append_content c st).
Hypothesis P_result : ∀ r st, P st → P (append_result r st).

Lemma preserved_interaction_key (a : action_data)
    (acc : element_details * run_state) (entry : option action_params) :
  P acc.2 → P (resolve_interaction_key a acc entry).2.
Proof.
  destruct acc as [d st]. unfold resolve_interaction_key.
  destruct entry as [[[k|]]|]; simpl; try done.
  destruct (interacted_xpath a); simpl; auto.
Qed.

Lemma preserved_resolve_action (a : action_data) (st : run_state) :
  P st → P (resolve_action a st).2.
Proof.
  intros H. unfold resolve_action.
  destruct (get_xpath_of_element a) as [p|].
  - unfold resolve_discovery. destruct (interacted_xpath a); simpl; auto.
  - destruct (existsb _ _); [|done]. unfold interaction_entries.
    cbn [fold_left]. by do 3 apply preserved_interaction_key.
Qed.

Lemma preserved_process_action (h : agent_history) (i : nat)
    (a : action_data) (st : run_state) :
  P st → P (process_action h i a st).
Proof.
  intros H. unfold process_action.
  pose proof (preserved_resolve_action a st H) as H'.
  destruct (resolve_action a st). by apply P_action.
Qed.

Lemma preserved_process_actions (h : agent_history)
    (actions : list action_data) (i : nat) (st : run_state) :
  P st → P (process_actions h i actions st).
Proof.
  revert i st. induction actions as [|a rest IH]; intros i st H; [done |].
  simpl. by apply IH, preserved_process_action.
Qed.

Lemma preserved_process_content (st : run_state) (content : pyvalue) :
  P st → P (process_content st content).1.
Proof.
  intros H. unfold process_content.
  destruct content as [| |text|]; simpl; auto.
  destruct (Text.search Text.match_xpath_phrase text); simpl; auto.
  destruct (Text.search Text.match_element_index text) as [digits|];
    simpl; auto.
  destruct (Text.int digits); simpl; auto.
Qed.

Lemma preserved_process_contents (contents : list pyvalue)
    (st : run_state) :
  P st → P (process_contents st contents).1.
Proof.
  revert st. induction contents as [|c cs IH]; intros st H; [done |].
  simpl. pose proof (preserved_process_content st c H) as Hc.
  destruct (process_content st c) as [st' [e|]]; [done |]. by apply IH.
Qed.

Lemma preserved_process_history (st : run_state) (h : agent_history) :
  P st → P (process_history st h).1.
Proof.
  intros H. unfold process_history.
  by apply preserved_process_contents, preserved_process_actions, P_result.
Qed.

Lemma preserved_run_scenarios (agent : nat → string → agent_outcome)
    (scenarios : list string) (n : nat) (last last' : option agent_history)
    (st st' : run_state) :
  P st → run_scenarios agent n scenarios last st = inr (last', st') →
  P st'.
Proof.
  revert n last st.
  induction scenarios as [|sc rest IH]; intros n last st H; simpl.
  - by intros [= _ <-].
  - destruct (agent n sc) as [e|h]; [done |].
    pose proof (preserved_process_history st h H) as Hh.
    destruct (process_history st h) as [st1 [e|]]; [done |]. by apply IH.
Qed.

End Preservation.

Lemma last_write_snoc (k k' : elem_index) (c : channel) (v : string)
    (log : list (channel * elem_index * string)) :
  last_write k (log ++ [(c, k', v)])
  = if decide (k = k') then Some v else last_write k log.
Proof.
  induction log as [|[[c0 k0] v0] log IH]; simpl; [done |].
  rewrite IH. destruct (decide (k = k')); [done |].
  by destruct (last_write k log).
Qed.

(** The last assignment to [k] in a log decides [last_write]. *)
Lemma last_write_decomposed (k : elem_index) (c : channel) (v : string)
    (pre post : list (channel * elem_index * string)) :
  (∀ c' v', (c', k, v') ∉ post) →
  last_write k (pre ++ (c, k, v) :: post) = Some v.
Proof.
  intros Hpost.
  assert (Hnone : last_write k post = None).
  { induction post as [|[[c0 k0] v0] post IH]; simpl; [done |].
    rewrite IH.
    - destruct (decide (k = k0)) as [->|]; [|done].
      destruct (Hpost c0 v0). left.
    - intros c' v' Hin. apply (Hpost c' v'). by right. }
  induction pre as [|[[c0 k0] v0] pre IH]; simpl.
  - rewrite Hnone. by rewrite decide_True.
  - by rewrite IH.
Qed.

Lemma map_follows_log_run (agent : nat → string → agent_outcome)
    (scenarios : list string) (last : option agent_history)
    (st : run_state) :
  run_scenarios agent 0 scenarios None initial_state = inr (last, st) →
  map_follows_log st.
Proof.
  apply (preserved_run_scenarios map_follows_log); try done.
  intros c k v st0 H k'. simpl. rewrite last_write_snoc, lookup_insert.
  destruct (decide (k = k')) as [->|]; [by rewrite decide_True |].
  rewrite decide_False; [apply H | congruence].
Qed.

Lemma keeps_keys_assign (st0 : run_state) (c : channel) (k : elem_index)
    (v : string) (st : run_state) :
  keeps_keys st0 st → keeps_keys st0 (assign_xpath c k v st).
Proof. unfold keeps_keys. simpl. rewrite dom_insert_L. set_solver. Qed.

Lemma keeps_keys_refl (st : run_state) : keeps_keys st st.
Proof. by unfold keeps_keys. Qed.

(** C5: after a run, every index that was assigned at least once is bound
    to the value of the last assignment made to it, whichever of the three
    places made it; and no step of a run removes a key from the map. *)
Theorem final_map_last_writer :
  (∀ (agent : nat → string → agent_outcome) (scenarios : list string)
     (last : option agent_history) (st : run_state)
     (pre post : list (channel * elem_index * string))
     (c : channel) (k : elem_index) (v : string),
     run_scenarios agent 0 scenarios None initial_state = inr (last, st) →
     xpath_writes st = pre ++ (c, k, v) :: post →
     (∀ c' v', (c', k, v') ∉ post) →
     element_xpath_map st !! k = Some v)
  ∧ (∀ (a : action_data) (st : run_state),
       keeps_keys st (resolve_action a st).2)
  ∧ (∀ (st : run_state) (content : pyvalue),
       keeps_keys st (process_content st content).1)
  ∧ (∀ (st : run_state) (h : agent_history),
       keeps_keys st (process_history st h).1).
Proof.
  repeat split.
  - intros agent scenarios last st pre post c k v Hrun Hlog Hpost.
    rewrite (map_follows_log_run _ _ _ _ Hrun k), Hlog.
    by apply last_write_decomposed.
  - intros a st. apply (preserved_resolve_action (keeps_keys st));
      [apply keeps_keys_assign | apply keeps_keys_refl].
  - intros st content. apply (preserved_process_content (keeps_keys st));
      [apply keeps_keys_assign | done | apply keeps_keys_refl].
  - intros st h. apply (preserved_process_history (keeps_keys st));
      [apply keeps_keys_assign | done.. | apply keeps_keys_refl].
Qed.

Lemma final_map_last_writer_witness :
  element_xpath_map (process_history initial_state sample_history).1
    !! IntIndex 7
  = Some "//p".
Proof.
  apply (proj1 final_map_last_writer (λ _ _, Returns sample_history)
           ["Scenario: A"] (Some sample_history)
           (process_history initial_state sample_history).1
           [(Discovery, IntIndex 7, "//div[@id=1]")]
           [(FreeText, IntIndex 5, "//button[2], found near element 5")]
           Interaction (IntIndex 7) "//p").
  - reflexivity.
  - reflexivity.
  - intros c' v' Hin. apply list_elem_of_singleton in Hin. discriminate Hin.
Defined.

(** ** The trace collector *)

Lemma resolve_action_frame (a : action_data) (st : run_state) :
  all_results (resolve_action a st).2 = all_results st
  ∧ all_actions (resolve_action a st).2 = all_actions st
  ∧ all_extracted_content (resolve_action a st).2
    = all_extracted_content st.
Proof.
  by apply (preserved_resolve_action
    (λ st', all_results st' = all_results st
            ∧ all_actions st' = all_actions st
            ∧ all_extracted_content st' = all_extracted_content st)).
Qed.

Lemma process_actions_outline (h : agent_history)
    (actions : list action_data) (i : nat) (st : run_state) :
  all_results (process_actions h i actions st) = all_results st
  ∧ labels (process_actions h i actions st)
    = labels st
      ++ map (λ j, (action_name_at h j, j)) (seq i (length actions))
  ∧ all_extracted_content (process_actions h i actions st)
    = all_extracted_content st.
Proof.
  revert i st. induction actions as [|a rest IH]; intros i st; simpl.
  - by rewrite app_nil_r.
  - destruct (IH (S i) (process_action h i a st)) as (-> & -> & ->).
    unfold process_action, labels.
    destruct (resolve_action_frame a st) as (H1 & H2 & H3).
    destruct (resolve_action a st) as [d st']. simpl in *.
    rewrite H1, H2, H3, map_app. simpl. by rewrite <- app_assoc.
Qed.

Lemma process_content_error (st : run_state) (content : pyvalue) :
  (process_content st content).2 = content_error content.
Proof.
  unfold process_content, content_error, Text.int.
  destruct content as [| |text|]; try done.
  destruct (Text.search Text.match_xpath_phrase text); [|done].
  destruct (Text.search Text.match_element_index text) as [digits|];
    [|done].
  by destruct (String.length digits <=? Text.int_max_str_digits).
Qed.

Lemma process_content_outline (st : run_state) (c : pyvalue) :
  all_results (process_content st c).1 = all_results st
  ∧ all_actions (process_content st c).1 = all_actions st
  ∧ all_extracted_content (process_content st c).1
    = all_extracted_content st ++ [c].
Proof.
  unfold process_content. destruct c as [| |text|]; try done.
  destruct (Text.search Text.match_xpath_phrase text); [|done].
  destruct (Text.search Text.match_element_index text) as [digits|];
    [|done].
  by destruct (Text.int digits).
Qed.

Lemma process_contents_outline (cs : list pyvalue) (st : run_state) :
  Forall (λ c, content_error c = None) cs →
  (process_contents st cs).2 = None
  ∧ all_results (process_contents st cs).1 = all_results st
  ∧ labels (process_contents st cs).1 = labels st
  ∧ all_extracted_content (process_contents st cs).1
    = all_extracted_content st ++ cs.
Proof.
  intros Hall. revert st.
  induction Hall as [|c cs Hc _ IH]; intros st; simpl.
  - by rewrite app_nil_r.
  - pose proof (process_content_error st c) as He. rewrite Hc in He.
    destruct (process_content_outline st c) as (H1 & H2 & H3).
    destruct (process_content st c) as [st' o]. simpl in *. subst o.
    destruct (IH st') as (-> & -> & Hl & ->). split; [done |].
    split; [done |]. split.
    + rewrite Hl. unfold labels. by rewrite H2.
    + by rewrite H3, <- app_assoc.
Qed.

Lemma process_history_outline (st : run_state) (h : agent_history) :
  clean_history h →
  (process_history st h).2 = None
  ∧ all_results (process_history st h).1
    = all_results st ++ [normalize_result (final_result h)]
  ∧ labels (process_history st h).1 = labels st ++ scenario_labels h
  ∧ all_extracted_content (process_history st h).1
    = all_extracted_content st ++ extracted_content h.
Proof.
  intros Hclean. unfold process_history.
  destruct (process_contents_outline (extracted_content h)
    (process_actions h 0 (model_actions h)
       (append_result (normalize_result (final_result h)) st)) Hclean)
    as (-> & -> & -> & ->).
  by destruct (process_actions_outline h (model_actions h) 0
    (append_result (normalize_result (final_result h)) st))
    as (-> & -> & ->).
Qed.

Lemma process_histories_outline (hs : list agent_history) (st : run_state) :
  Forall clean_history hs →
  all_results (state_after hs st)
  = all_results st ++ map (λ h, normalize_result (final_result h)) hs
  ∧ labels (state_after hs st)
    = labels st ++ concat (map scenario_labels hs)
  ∧ all_extracted_content (state_after hs st)
    = all_extracted_content st ++ concat (map extracted_content hs).
Proof.
  intros Hall. revert st. unfold state_after.
  induction Hall as [|h hs Hh _ IH]; intros st; simpl.
  - by rewrite !app_nil_r.
  - destruct (IH (process_history st h).1) as (-> & -> & ->).
    destruct (process_history_outline st h Hh) as (_ & -> & -> & ->).
    by rewrite <- !app_assoc.
Qed.

(** A run in which the agent returns for every scenario and no content
    item makes line 242 raise goes through every history it returned. *)
Lemma run_scenarios_returns (agent : nat → string → agent_outcome)
    (scenarios : list string) (hs : list agent_history) (n : nat)
    (last0 : option agent_history) (st : run_state) :
  agent_returns agent n scenarios hs →
  Forall clean_history hs →
  run_scenarios agent n scenarios last0 st
  = inr (last_history hs last0, state_after hs st).
Proof.
  revert hs n last0 st.
  induction scenarios as [|sc rest IH]; intros [|h hs] n last0 st; simpl;
    try done.
  intros [-> Hrest] Hall. inversion Hall as [|? ? Hh Hhs]; subst.
  destruct (process_history_outline st h Hh) as (He & _).
  destruct (process_history st h) as [st' o] eqn:E. simpl in He. subst o.
  rewrite (IH _ _ _ _ Hrest Hhs).
  unfold last_history, state_after. cbn [fold_left fst]. rewrite last_cons.
  by destruct (last hs).
Qed.

Lemma process_contents_clean (contents : list pyvalue) (st : run_state) :
  (process_contents st contents).2 = None →
  Forall (λ c, content_error c = None) contents.
Proof.
  revert st. induction contents as [|c cs IH]; intros st; [done |].
  simpl. pose proof (process_content_error st c) as He.
  destruct (process_content st c) as [st' [e|]]; simpl in *; [done |].
  intros H. constructor; [done |]. by apply (IH st').
Qed.

(** Conversely, the loop is only left at its end when no content item of
    the returned histories made line 242 raise. *)
Lemma run_scenarios_clean (agent : nat → string → agent_outcome)
    (scenarios : list string) (hs : list agent_history) (n : nat)
    (last0 last1 : option agent_history) (st st1 : run_state) :
  agent_returns agent n scenarios hs →
  run_scenarios agent n scenarios last0 st = inr (last1, st1) →
  Forall clean_history hs.
Proof.
  revert hs n last0 st.
  induction scenarios as [|sc rest IH]; intros [|h hs] n last0 st; simpl;
    try done.
  intros [-> Hrest]. unfold process_history at 1.
  destruct (process_contents _ _) as [st' [e|]] eqn:E; [done |].
  intros Hrun. constructor; [|by apply (IH _ _ _ _ Hrest Hrun)].
  apply (process_contents_clean _ _ (f_equal snd E)).
Qed.

(** A run in which the agent raises for some scenario ends with an
    exception. *)
Lemma run_scenarios_raises (agent : nat → string → agent_outcome)
    (scenarios : list string) (n i : nat) (scenario : string) (e : exn)
    (last0 : option agent_history) (st : run_state) :
  scenarios !! i = Some scenario →
  agent (n + i) scenario = Raises e →
  ∃ e', run_scenarios agent n scenarios last0 st = inl e'.
Proof.
  revert n i last0 st.
  induction scenarios as [|sc rest IH]; intros n i last0 st; [done |].
  simpl. destruct i as [|i]; simpl.
  - intros [= ->]. rewrite Nat.add_0_r. intros ->. by eexists.
  - intros Hi Hr. destruct (agent n sc) as [e0|h]; [by eexists |].
    destruct (process_history st h) as [st' [e1|]]; [by eexists |].
    apply (IH (S n) i); [done |]. by rewrite Nat.add_succ_r in Hr.
Qed.

Lemma execute_test_returns (agent : nat → string → agent_outcome)
    (display : run_state → agent_history → option exn) (steps : string)
    (ss : session_state) (hs : list agent_history) (h : agent_history) :
  agent_returns agent 0 (split_scenarios steps) hs →
  Forall clean_history hs →
  last hs = Some h →
  execute_test agent display steps ss
  = ({| history := Some (build_record h (state_after hs initial_state) ss);
        execution_date := execution_date ss |},
     display (state_after hs initial_state) h).
Proof.
  intros Hret Hall Hlast. unfold execute_test, try_body.
  rewrite (run_scenarios_returns _ _ _ _ _ _ Hret Hall).
  unfold last_history. by rewrite Hlast.
Qed.

Lemma agent_returns_length (agent : nat → string → agent_outcome)
    (scenarios : list string) (hs : list agent_history) (n : nat) :
  agent_returns agent n scenarios hs → length hs = length scenarios.
Proof.
  revert hs n. induction scenarios as [|sc rest IH]; intros [|h hs] n;
    simpl; try done.
  intros [_ H]. by rewrite (IH _ _ H).
Qed.

Lemma labels_indices (hs : list agent_history) :
  map snd (concat (map scenario_labels hs))
  = concat (map scenario_indices hs).
Proof.
  rewrite concat_map, map_map. f_equal. apply map_ext. intros h.
  unfold scenario_labels, scenario_indices. rewrite map_map. apply map_id.
Qed.

Lemma labels_names (hs : list agent_history) :
  map fst (concat (map scenario_labels hs)) = concat (map scenario_names hs).
Proof.
  rewrite concat_map, map_map. f_equal. apply map_ext. intros h.
  unfold scenario_labels, scenario_names. by rewrite map_map.
Qed.

(** C3, as the code has it: in a run that stores a record (the agent
    returns for every scenario and no content item makes line 242 raise),
    the [index] of a record is its zero-based position among the entries of
    its own scenario's history; the indices of the combined list are those
    of the first scenario, then those of the second, and so on. *)
Theorem action_index_within_scenario (agent : nat → string → agent_outcome)
    (display : run_state → agent_history → option exn) (steps : string)
    (ss : session_state) (hs : list agent_history) :
  agent_returns agent 0 (split_scenarios steps) hs →
  Forall clean_history hs →
  hs ≠ [] →
  ∃ r, history (session_after agent display steps ss) = Some r
       ∧ map ad_index (rec_detailed_actions r)
         = concat (map scenario_indices hs).
Proof.
  intros Hret Hall [h Hlast]%last_is_Some. unfold session_after.
  rewrite (execute_test_returns _ _ _ _ hs h Hret Hall Hlast).
  eexists. split; [done |].
  simpl. rewrite <- labels_indices.
  destruct (process_histories_outline hs initial_state Hall) as (_ & Hl & _).
  simpl in Hl. rewrite <- Hl. unfold labels. by rewrite map_map.
Qed.

Lemma action_index_within_scenario_witness :
  ∃ r, history (session_after steady_agent failing_display two_scenarios
                  fresh_session) = Some r
       ∧ map ad_index (rec_detailed_actions r)
         = concat (map scenario_indices [sample_history; two_key_history]).
Proof.
  apply (action_index_within_scenario steady_agent failing_display
           two_scenarios fresh_session [sample_history; two_key_history]).
  - vm_compute. tauto.
  - repeat constructor.
  - discriminate.
Defined.

(** C3 as stated fails: in a run of two scenarios the indices start again
    at 0 with the second scenario. *)
Lemma action_index_restarts :
  ∃ r, history (session_after steady_agent quiet_display two_scenarios
                  fresh_session) = Some r
       ∧ map ad_index (rec_detailed_actions r) = [0; 1; 2; 0; 1]
       ∧ map ad_index (rec_detailed_actions r)
         ≠ seq 0 (length (rec_detailed_actions r)).
Proof.
  eexists. split; [reflexivity |]. split; [reflexivity |].
  vm_compute. discriminate.
Qed.

(** C6: when the agent raises for some scenario of the run, the session is
    left as it was before the run, stored record included, and one error is
    shown. *)
Theorem failed_run_stores_nothing (agent : nat → string → agent_outcome)
    (display : run_state → agent_history → option exn) (steps : string)
    (ss : session_state) (i : nat) (scenario : string) (e : exn) :
  split_scenarios steps !! i = Some scenario →
  agent i scenario = Raises e →
  session_after agent display steps ss = ss
  ∧ history (session_after agent display steps ss) = history ss
  ∧ ∃ e', (execute_test agent display steps ss).2 = Some e'.
Proof.
  intros Hi Hr.
  destruct (run_scenarios_raises agent (split_scenarios steps) 0 i scenario
              e None initial_state Hi Hr) as [e' He'].
  unfold session_after, execute_test, try_body. rewrite He'. simpl.
  repeat split. by exists e'.
Qed.

Lemma failed_run_stores_nothing_witness :
  session_after flaky_agent quiet_display two_scenarios used_session
  = used_session
  ∧ history (session_after flaky_agent quiet_display two_scenarios
               used_session)
    = Some earlier_record
  ∧ ∃ e', (execute_test flaky_agent quiet_display two_scenarios
             used_session).2 = Some e'.
Proof.
  apply (failed_run_stores_nothing flaky_agent quiet_display two_scenarios
           used_session 1
           ("Scenario: B" +:+ String Text.newline "  Then done")
           (AgentError "browser closed")).
  - reflexivity.
  - reflexivity.
Defined.

(** C7, as the code has it: a bare string result [s] becomes the pair of
    [status] [s] and [details] ["Execution completed"]; any other result is
    kept as it is; so no accumulated result is a bare string, and every
    accumulated result is structured when every result of the agent that
    is not a bare string is. *)
Theorem normalized_results :
  (∀ s : string,
     normalize_result (PyStr s)
     = PyDict [("status", PyStr s);
               ("details", PyStr "Execution completed")])
  ∧ (∀ r : pyvalue, bare_string r = false → normalize_result r = r)
  ∧ (∀ (agent : nat → string → agent_outcome) (scenarios : list string)
       (hs : list agent_history),
       agent_returns agent 0 scenarios hs →
       Forall clean_history hs →
       ∃ last st,
         run_scenarios agent 0 scenarios None initial_state = inr (last, st)
         ∧ all_results st = map (λ h, normalize_result (final_result h)) hs
         ∧ Forall (λ r, bare_string r = false) (all_results st)
         ∧ (Forall (λ h, bare_string (final_result h)
                         || structured (final_result h) = true) hs →
            Forall (λ r, structured r = true) (all_results st))).
Proof.
  split; [done |]. split.
  - by intros [].
  - intros agent scenarios hs Hret Hall.
    rewrite (run_scenarios_returns _ _ _ _ None initial_state Hret Hall).
    do 2 eexists. split; [done |].
    destruct (process_histories_outline hs initial_state Hall)
      as (-> & _ & _).
    simpl. split; [done |]. split.
    + apply Forall_map, Forall_forall. intros h _.
      by destruct (final_result h).
    + intros Hshape. apply Forall_map. eapply Forall_impl; [exact Hshape |].
      intros h. simpl. by destruct (final_result h).
Qed.

Lemma normalized_results_witness :
  ∃ last st,
    run_scenarios steady_agent 0 ["Scenario: A"; "Scenario: B"] None
      initial_state = inr (last, st)
    ∧ all_results st
      = map (λ h, normalize_result (final_result h))
          [sample_history; two_key_history]
    ∧ Forall (λ r, bare_string r = false) (all_results st)
    ∧ (Forall (λ h, bare_string (final_result h)
                    || structured (final_result h) = true)
         [sample_history; two_key_history] →
       Forall (λ r, structured r = true) (all_results st)).
Proof.
  apply (proj2 (proj2 normalized_results) steady_agent
           ["Scenario: A"; "Scenario: B"] [sample_history; two_key_history]).
  - vm_compute. tauto.
  - repeat constructor.
Defined.

(** C7 as stated fails: a result that is no string, here [None], is
    accumulated as it is, and it is not structured. *)
Lemma normalized_results_not_all_structured :
  ∃ last st,
    run_scenarios (λ _ _, Returns no_history) 0 ["Scenario: A"] None
      initial_state = inr (last, st)
    ∧ all_results st = [PyNone]
    ∧ ¬ Forall (λ r, structured r = true) (all_results st).
Proof.
  do 2 eexists. split; [reflexivity |]. split; [reflexivity |].
  intros H. inversion H as [|? ? Hs _]. discriminate Hs.
Qed.

(** C10: in a run of at least two scenarios that stores a record (the
    agent returns for every scenario and no content item makes line 242
    raise), the stored record has the [urls], [action_names], [errors] and
    [model_actions] of the last scenario's history alone, while
    [detailed_actions] and [extracted_content] hold what every scenario
    contributed, in order. *)
Theorem record_from_last_history (agent : nat → string → agent_outcome)
    (display : run_state → agent_history → option exn) (steps : string)
    (ss : session_state) (hs : list agent_history) :
  2 ≤ length (split_scenarios steps) →
  agent_returns agent 0 (split_scenarios steps) hs →
  Forall clean_history hs →
  ∃ h r,
    last hs = Some h
    ∧ history (session_after agent display steps ss) = Some r
    ∧ rec_urls r = urls h
    ∧ rec_action_names r = action_names h
    ∧ rec_errors r = errors h
    ∧ rec_model_actions r = model_actions h
    ∧ map ad_name (rec_detailed_actions r) = concat (map scenario_names hs)
    ∧ rec_extracted_content r = concat (map extracted_content hs).
Proof.
  intros Hlen Hret Hall.
  assert (Hne : hs ≠ []).
  { intros ->. apply agent_returns_length in Hret. simpl in Hret. lia. }
  apply last_is_Some in Hne as [h Hlast].
  exists h. eexists. split; [done |]. unfold session_after.
  rewrite (execute_test_returns _ _ _ _ hs h Hret Hall Hlast).
  split; [done |]. simpl.
  destruct (process_histories_outline hs initial_state Hall)
    as (_ & Hl & ->).
  repeat split. rewrite <- labels_names. simpl in Hl. rewrite <- Hl.
  unfold labels. by rewrite map_map.
Qed.

Lemma record_from_last_history_witness :
  ∃ h r,
    last [sample_history; two_key_history] = Some h
    ∧ history (session_after steady_agent quiet_display two_scenarios
                 fresh_session)
      = Some r
    ∧ rec_urls r = urls h
    ∧ rec_action_names r = action_names h
    ∧ rec_errors r = errors h
    ∧ rec_model_actions r = model_actions h
    ∧ map ad_name (rec_detailed_actions r)
      = concat (map scenario_names [sample_history; two_key_history])
    ∧ rec_extracted_content r
      = concat (map extracted_content [sample_history; two_key_history]).
Proof.
  apply (record_from_last_history steady_agent quiet_display two_scenarios
           fresh_session [sample_history; two_key_history]).
  - vm_compute. lia.
  - vm_compute. tauto.
  - repeat constructor.
Defined.

(** * Further properties of the code *)

(** ** The lines of a text *)

Module LineFacts.
Import Text TextFacts.

Lemma split_lines_cons (s : string) : ∃ l ls, split_lines s = l :: ls.
Proof.
  induction s as [|c s (l & ls & IH)]; simpl; [by eexists _, _ |].
  destruct (Ascii.eqb c newline); [by eexists _, _ |].
  rewrite IH. by eexists _, _.
Qed.

Lemma join_split (s : string) : join_lines (split_lines s) = s.
Proof.
  induction s as [|c s IH]; [done |]. simpl.
  destruct (Ascii.eqb_spec c newline) as [->|].
  - destruct (split_lines_cons s) as (l & ls & E). rewrite E in *.
    change (join_lines (EmptyString :: l :: ls))
      with (EmptyString +:+ String newline (join_lines (l :: ls))).
    by rewrite IH.
  - destruct (split_lines_cons s) as (l & ls & E). rewrite E in *.
    rewrite <- IH. destruct ls as [|l' ls]; [done |].
    change (join_lines (String c l :: l' :: ls))
      with (String c l +:+ String newline (join_lines (l' :: ls))).
    by rewrite app_cons.
Qed.

Lemma split_lines_newline_free (s : string) :
  Forall (λ l, newline_free l = true) (split_lines s).
Proof.
  induction s as [|c s IH]; simpl; [by repeat constructor |].
  destruct (Ascii.eqb c newline) eqn:E; [by constructor |].
  destruct (split_lines s) as [|l ls]; [by repeat constructor; simpl; rewrite E |].
  inversion IH as [|? ? Hl Hls]; subst. constructor; [|done].
  simpl. by rewrite E.
Qed.

Lemma split_lines_line (l : string) :
  newline_free l = true → split_lines l = [l].
Proof.
  induction l as [|c l IH]; simpl; [done |].
  intros [Hc Hl]%andb_true_iff. apply negb_true_iff in Hc. rewrite Hc.
  by rewrite (IH Hl).
Qed.

Lemma split_lines_app (l rest : string) :
  newline_free l = true →
  split_lines (l +:+ String newline rest) = l :: split_lines rest.
Proof.
  induction l as [|c l IH].
  - intros _. by rewrite app_nil.
  - intros [Hc Hl]%andb_true_iff. apply negb_true_iff in Hc.
    rewrite app_cons. simpl. by rewrite Hc, (IH Hl).
Qed.

Lemma split_join (ls : list string) :
  ls ≠ [] → Forall (λ l, newline_free l = true) ls →
  split_lines (join_lines ls) = ls.
Proof.
  induction ls as [|l ls IH]; [done |]. intros _ Hall.
  inversion Hall as [|? ? Hl Hls]; subst.
  destruct ls as [|l' ls]; [by apply split_lines_line |].
  change (join_lines (l :: l' :: ls))
    with (l +:+ String newline (join_lines (l' :: ls))).
  rewrite (split_lines_app _ _ Hl). by rewrite IH.
Qed.

Lemma join_lines_cons (l : string) (ls : list string) :
  ls ≠ [] → join_lines (l :: ls) = l +:+ String newline (join_lines ls).
Proof. by destruct ls. Qed.

Lemma join_lines_app (l1 l2 : list string) :
  l1 ≠ [] → l2 ≠ [] →
  join_lines (l1 ++ l2) = join_lines l1 +:+ String newline (join_lines l2).
Proof.
  induction l1 as [|l l1 IH]; [done |]. intros _ H2.
  destruct l1 as [|l' l1]; simpl app.
  - by rewrite join_lines_cons.
  - rewrite (join_lines_cons l (l' :: l1 ++ l2)); [|done].
    rewrite (join_lines_cons l (l' :: l1)); [|done].
    change (l' :: l1 ++ l2) with ((l' :: l1) ++ l2).
    rewrite IH; [|done..]. by rewrite app_assoc.
Qed.

(** Joining joined blocks joins all their lines. *)
Lemma join_lines_concat (gs : list (list string)) :
  Forall (λ g, g ≠ []) gs →
  join_lines (map join_lines gs) = join_lines (concat gs).
Proof.
  induction gs as [|g gs IH]; [done |]. intros Hall.
  inversion Hall as [|? ? Hg Hgs]; subst.
  destruct gs as [|g' gs].
  - simpl. by rewrite app_nil_r.
  - rewrite concat_cons.
    change (map join_lines (g :: g' :: gs))
      with (join_lines g :: map join_lines (g' :: gs)).
    rewrite join_lines_cons; [|done].
    rewrite join_lines_app; [by rewrite IH | done |].
    inversion Hgs; subst. rewrite concat_cons. by destruct g'.
Qed.

End LineFacts.

(** ** The scenario splitter: blocks *)

Lemma split_loop_groups (lines : list string) (groups : list (list string))
    (current : list string) :
  fold_left split_step lines (map Text.join_lines groups, current)
  = (map Text.join_lines (fold_left group_step lines (groups, current)).1,
     (fold_left group_step lines (groups, current)).2).
Proof.
  revert groups current.
  induction lines as [|line lines IH]; intros groups current; [done |].
  cbn [fold_left]. unfold split_step at 2, group_step at 2 4.
  fold (scenario_line line).
  destruct (scenario_line line), current as [|l0 current]; simpl truthy_list;
    cbv iota; try apply IH.
  change (map Text.join_lines groups ++ [Text.join_lines (l0 :: current)])
    with (map Text.join_lines groups ++ map Text.join_lines [l0 :: current]).
  rewrite <- map_app. apply IH.
Qed.

(** The splitter returns the joined groups of lines. *)
Lemma split_scenarios_groups (steps : string) :
  split_scenarios steps
  = map Text.join_lines (scenario_groups (Text.split_lines steps)).
Proof.
  unfold split_scenarios, scenario_groups, close_groups.
  rewrite (split_loop_groups _ [] []).
  destruct (fold_left group_step _ _) as [groups current]. simpl.
  destruct current; simpl; [done |]. by rewrite map_app.
Qed.

Lemma Forall_snoc {A} (P : A → Prop) (l : list A) (x : A) :
  Forall P l → P x → Forall P (l ++ [x]).
Proof. intros Hl Hx. apply Forall_app. split; [done |]. by constructor. Qed.

Lemma group_loop_invariant (lines : list string)
    (groups : list (list string)) (current : list string) :
  Forall scenario_group groups →
  current = [] ∨ scenario_group current →
  (current = [] → groups = []) →
  Forall scenario_group
    (close_groups (fold_left group_step lines (groups, current)))
  ∧ concat (close_groups (fold_left group_step lines (groups, current)))
    = concat groups ++ current
      ++ (if truthy_list current then lines else drop_preamble lines).
Proof.
  revert groups current.
  induction lines as [|line lines IH]; intros groups current Hg Hc He.
  - simpl. destruct current as [|l0 current]; simpl.
    + by rewrite (He eq_refl).
    + destruct Hc as [|Hc]; [done |]. split.
      * by apply Forall_snoc.
      * rewrite concat_app. simpl. by rewrite !app_nil_r.
  - cbn [fold_left]. unfold group_step at 2 4. cbn [drop_preamble].
    destruct (scenario_line line) eqn:El.
    + assert (Hline : scenario_group [line])
        by (exists line, []; by repeat split).
      destruct current as [|l0 current]; simpl truthy_list; cbv iota.
      * destruct (IH groups [line]) as [H1 H2]; [done | by right | done |].
        split; [done |]. rewrite H2. simpl. by rewrite (He eq_refl).
      * destruct Hc as [|Hc]; [done |].
        destruct (IH (groups ++ [l0 :: current]) [line]) as [H1 H2];
          [by apply Forall_snoc | by right | done |].
        split; [done |]. rewrite H2, concat_app. simpl.
        by rewrite app_nil_r, <- !app_assoc.
    + destruct current as [|l0 current]; simpl truthy_list; cbv iota.
      * by apply IH.
      * destruct Hc as [|(l & rest & [= -> ->] & Hl & Hrest)]; [done |].
        destruct (IH groups ((l :: rest) ++ [line])) as [H1 H2];
          [done | | done |].
        { right. exists l, (rest ++ [line]). repeat split; [done |].
          by apply Forall_snoc. }
        split; [done |]. rewrite H2. simpl. by rewrite <- !app_assoc.
Qed.

Lemma scenario_groups_spec (lines : list string) :
  Forall scenario_group (scenario_groups lines)
  ∧ concat (scenario_groups lines) = drop_preamble lines.
Proof.
  destruct (group_loop_invariant lines [] []) as [H1 H2];
    [done | by left | done |].
  by split.
Qed.

Lemma filter_drop_preamble (lines : list string) :
  List.filter scenario_line (drop_preamble lines)
  = List.filter scenario_line lines.
Proof.
  induction lines as [|l lines IH]; [done |]. simpl.
  destruct (scenario_line l) eqn:E; [|done]. simpl. by rewrite E.
Qed.

Lemma filter_groups (groups : list (list string)) :
  Forall scenario_group groups →
  length (List.filter scenario_line (concat groups)) = length groups.
Proof.
  induction 1 as [|g groups (l & rest & -> & Hl & Hrest) _ IH]; [done |].
  rewrite concat_cons, List.filter_app, length_app, IH. simpl. rewrite Hl.
  assert (Hnone : List.filter scenario_line rest = []).
  { induction Hrest as [|x rest Hx _ IHr]; [done |]. simpl. by rewrite Hx. }
  by rewrite Hnone.
Qed.

(** X1: the splitter returns as many blocks as the text has lines that,
    once stripped, start with [Scenario:]. *)
Theorem split_counts_scenario_lines (steps : string) :
  length (split_scenarios steps)
  = length (List.filter scenario_line (Text.split_lines steps)).
Proof.
  destruct (scenario_groups_spec (Text.split_lines steps)) as [Hg Hc].
  rewrite split_scenarios_groups, length_map, <- filter_drop_preamble, <- Hc.
  symmetry. by apply filter_groups.
Qed.

Lemma drop_preamble_newline_free (lines : list string) :
  Forall (λ l, newline_free l = true) lines →
  Forall (λ l, newline_free l = true) (drop_preamble lines).
Proof.
  induction 1 as [|l lines Hl Hls IH]; [done |]. simpl.
  destruct (scenario_line l); [by constructor | done].
Qed.

(** X2: every block the splitter returns is made of a first line that,
    once stripped, starts with [Scenario:], followed by lines none of which
    does; in particular no block is empty. *)
Theorem split_block_shape (steps block : string) :
  block ∈ split_scenarios steps →
  ∃ line rest,
    Text.split_lines block = line :: rest
    ∧ scenario_line line = true
    ∧ Forall (λ l, scenario_line l = false) rest.
Proof.
  rewrite split_scenarios_groups.
  intros (g & <- & Hin)%list_elem_of_In%in_map_iff.
  destruct (scenario_groups_spec (Text.split_lines steps)) as [Hg Hc].
  assert (Hfree : Forall (λ l, newline_free l = true) g).
  { pose proof (drop_preamble_newline_free _
      (LineFacts.split_lines_newline_free steps)) as Hall.
    rewrite <- Hc in Hall. rewrite Forall_forall in Hall.
    apply Forall_forall. intros l Hl. apply Hall.
    apply list_elem_of_In, in_concat. exists g. split; [done |].
    by apply list_elem_of_In. }
  rewrite Forall_forall in Hg.
  destruct (Hg g) as (line & rest & -> & Hl & Hrest);
    [by apply list_elem_of_In |].
  exists line, rest. by rewrite LineFacts.split_join.
Qed.

Lemma split_block_shape_witness :
  ∃ line rest,
    Text.split_lines ("Scenario: B" +:+ String Text.newline "  Then done")
    = line :: rest
    ∧ scenario_line line = true
    ∧ Forall (λ l, scenario_line l = false) rest.
Proof.
  apply (split_block_shape two_scenarios).
  apply list_elem_of_In. right. left. reflexivity.
Defined.

(** X3: joining the returned blocks with newlines gives back the text
    from its first [Scenario:] line on; a text whose first line is a
    [Scenario:] line is given back whole. *)
Theorem split_then_join (steps : string) :
  Text.join_lines (split_scenarios steps)
  = Text.join_lines (drop_preamble (Text.split_lines steps))
  ∧ (∀ line rest,
       Text.split_lines steps = line :: rest →
       scenario_line line = true →
       Text.join_lines (split_scenarios steps) = steps).
Proof.
  destruct (scenario_groups_spec (Text.split_lines steps)) as [Hg Hc].
  assert (Heq : Text.join_lines (split_scenarios steps)
                = Text.join_lines (drop_preamble (Text.split_lines steps))).
  { rewrite split_scenarios_groups, LineFacts.join_lines_concat, Hc; [done |].
    eapply Forall_impl; [exact Hg |]. by intros g (l & rest & -> & _). }
  split; [exact Heq |]. intros line rest Hs Hl.
  rewrite Heq, Hs. simpl. rewrite Hl, <- Hs. apply LineFacts.join_split.
Qed.

Lemma split_then_join_witness :
  Text.join_lines
    (split_scenarios ("Scenario: A" +:+ String Text.newline "  Given x"))
  = "Scenario: A" +:+ String Text.newline "  Given x".
Proof.
  apply (proj2 (split_then_join
                  ("Scenario: A" +:+ String Text.newline "  Given x"))
           "Scenario: A" ["  Given x"]); reflexivity.
Defined.

(** ** The element resolver: one entry *)

Lemma xpath_attr_absent (s : string) :
  ¬ Text.contains "xpath='" s →
  Text.search Text.match_xpath_attr s = None.
Proof.
  intros Hno.
  destruct (Text.search Text.match_xpath_attr s) as [x|] eqn:E; [|done].
  destruct (TextFacts.search_Some _ _ _ E) as (pre & post & -> & Hm).
  unfold Text.match_xpath_attr in Hm.
  destruct (Text.strip_prefix _ post) as [r|] eqn:Hp; [|done].
  apply TextFacts.strip_prefix_Some in Hp as ->.
  destruct Hno. apply TextFacts.contains_app_l, TextFacts.contains_prefix.
Qed.

Lemma interacted_xpath_none (a : action_data) :
  no_xpath_in_description a → interacted_xpath a = None.
Proof.
  unfold no_xpath_in_description, interacted_xpath. intros H.
  destruct (interacted_element a) as [e|]; [|done].
  destruct (truthy_element e) eqn:Et; [|done].
  by apply xpath_attr_absent, H.
Qed.


(** With one interaction key present, the loop over the three keys does
    the work of that key alone. *)
Lemma resolve_single_interaction (a : action_data) (st : run_state)
    (p : action_params) :
  get_xpath_of_element a = None →
  present_params a = [p] →
  resolve_action a st = resolve_interaction_key a (no_details, st) (Some p).
Proof.
  unfold resolve_action, present_params, interaction_entries. intros ->.
  destruct (input_text a) as [p1|], (click_element a) as [p2|],
    (perform_element_action a) as [p3|]; simpl; intros [=]; by subst.
Qed.

(** X4: an interaction entry whose description gives no XPath gets the
    index it names and the XPath the map already holds for that index, if
    any; the map is left as it is. *)
Theorem interaction_attaches_known (a : action_data) (st : run_state)
    (p : action_params) (k : elem_index) :
  get_xpath_of_element a = None →
  present_params a = [p] →
  param_index p = Some k →
  no_xpath_in_description a →
  resolve_action a st
  = ({| ed_index := Some k; ed_xpath := element_xpath_map st !! k |}, st).
Proof.
  intros Hd Hp Hk Hno. rewrite (resolve_single_interaction a st p Hd Hp).
  unfold resolve_interaction_key.
  rewrite Hk, (interacted_xpath_none a Hno).
  by destruct (element_xpath_map st !! k).
Qed.

Lemma interaction_attaches_known_witness :
  resolve_action (click 7 None)
    (process_action sample_history 0 (discover 7 div_element) initial_state)
  = ({| ed_index := Some (IntIndex 7); ed_xpath := Some "//div[@id=1]" |},
     process_action sample_history 0 (discover 7 div_element) initial_state).
Proof.
  apply (interaction_attaches_known (click 7 None)
           (process_action sample_history 0 (discover 7 div_element)
              initial_state)
           {| param_index := Some (IntIndex 7) |} (IntIndex 7));
    try reflexivity.
  intros e He. discriminate He.
Defined.



(** X6: an entry whose interaction keys all lack the [index] parameter
    gets no element details and writes nothing, even when its description
    shows an XPath. *)
Theorem interaction_without_index (a : action_data) (st : run_state) :
  get_xpath_of_element a = None →
  Forall (λ p, param_index p = None) (present_params a) →
  resolve_action a st = (no_details, st).
Proof.
  unfold resolve_action, present_params, interaction_entries. intros ->.
  destruct (input_text a) as [[[k1|]]|], (click_element a) as [[[k2|]]|],
    (perform_element_action a) as [[[k3|]]|]; simpl; intros H;
    repeat match goal with
      | H : Forall _ (_ :: _) |- _ => inversion H; clear H; subst
      end; simpl in *; done.
Qed.

Lemma interaction_without_index_witness :
  resolve_action scroll_to_text initial_state = (no_details, initial_state).
Proof.
  apply (interaction_without_index scroll_to_text initial_state).
  - reflexivity.
  - repeat constructor.
Defined.

(** X7: a discovery entry whose description gives no XPath gets its index
    only: the XPath the map may already hold for that index is not
    attached, and the map is left as it is. *)
Theorem discovery_without_xpath (a : action_data) (st : run_state)
    (p : action_params) :
  get_xpath_of_element a = Some p →
  no_xpath_in_description a →
  resolve_action a st
  = ({| ed_index := Some (discovery_index p); ed_xpath := None |}, st).
Proof.
  intros Hp Hno. unfold resolve_action, resolve_discovery.
  by rewrite Hp, (interacted_xpath_none a Hno).
Qed.

Lemma discovery_without_xpath_witness :
  resolve_action (discover 7 "DOMHistoryElement(tag='div')")
    (process_action sample_history 0 (discover 7 div_element) initial_state)
  = ({| ed_index := Some (IntIndex 7); ed_xpath := None |},
     process_action sample_history 0 (discover 7 div_element) initial_state).
Proof.
  apply (discovery_without_xpath (discover 7 "DOMHistoryElement(tag='div')")
           _ {| param_index := Some (IntIndex 7) |}); [reflexivity |].
  intros e [= <-] _. apply TextFacts.not_contains. reflexivity.
Defined.

Lemma interaction_key_frame (a : action_data)
    (acc : element_details * run_state) (entry : option action_params)
    (k : elem_index) :
  (∀ p, entry = Some p → param_index p ≠ Some k) →
  element_xpath_map (resolve_interaction_key a acc entry).2 !! k
  = element_xpath_map acc.2 !! k.
Proof.
  destruct acc as [d st]. unfold resolve_interaction_key.
  destruct entry as [[[k'|]]|]; simpl; try done. intros H.
  destruct (interacted_xpath a); simpl; [|done].
  rewrite lookup_insert_ne; [done |]. intros ->. by apply (H _ eq_refl).
Qed.

(** X8: resolving an entry leaves the map as it is at every index the
    entry does not name. *)
Theorem resolve_action_frame_map (a : action_data) (st : run_state)
    (k : elem_index) :
  k ∉ named_indices a →
  element_xpath_map (resolve_action a st).2 !! k = element_xpath_map st !! k.
Proof.
  unfold named_indices, resolve_action, present_params, interaction_entries.
  destruct (get_xpath_of_element a) as [p|].
  - intros Hk. unfold resolve_discovery.
    destruct (interacted_xpath a); simpl; [|done].
    apply lookup_insert_ne. intros <-. apply Hk. by left.
  - intros Hk. destruct (existsb _ _); [|done]. cbn [fold_left].
    rewrite !interaction_key_frame; [done | ..];
      intros p Hp Hi; apply Hk;
      destruct (input_text a) as [p1|], (click_element a) as [p2|],
        (perform_element_action a) as [p3|]; simplify_eq; simpl;
        rewrite ?Hi; simpl;
        repeat (destruct (param_index _)); set_solver.
Qed.

Lemma resolve_action_frame_map_witness :
  element_xpath_map
    (resolve_action
       (click 8 (Some (ElemObject "DOMHistoryElement(xpath='//p')")))
       (process_action sample_history 0 (discover 7 div_element)
          initial_state)).2 !! IntIndex 7
  = Some "//div[@id=1]".
Proof.
  apply (resolve_action_frame_map
           (click 8 (Some (ElemObject "DOMHistoryElement(xpath='//p')")))
           (process_action sample_history 0 (discover 7 div_element)
              initial_state) (IntIndex 7)).
  intros Hin. apply list_elem_of_singleton in Hin. discriminate Hin.
Defined.

(** ** The pass over the extracted content: what it writes *)

Lemma span_newline_free (s run rest : string) :
  Text.span (λ c, negb (Ascii.eqb c Text.newline)) s = (run, rest) →
  newline_free run = true.
Proof.
  revert run rest. induction s as [|c s IH]; simpl; intros run rest.
  - by intros [= <- <-].
  - destruct (negb (Ascii.eqb c Text.newline)) eqn:E;
      [|by intros [= <- <-]].
    destruct (Text.span _ s) as [run' rest'] eqn:Es. intros [= <- <-].
    simpl. by rewrite E, (IH _ _ eq_refl).
Qed.

Lemma int_of_digits_nonneg (s run rest : string) (acc : Z) :
  Text.span Text.isdigit s = (run, rest) →
  (0 ≤ acc)%Z → (0 ≤ Text.int_of_digits acc run)%Z.
Proof.
  revert run rest acc. induction s as [|c s IH]; simpl; intros run rest acc.
  - by intros [= <- <-].
  - destruct (Text.isdigit c) eqn:E; [|by intros [= <- <-]].
    destruct (Text.span _ s) as [run' rest'] eqn:Es. intros [= <- <-] Hacc.
    simpl. apply (IH _ _ _ eq_refl).
    unfold Text.isdigit in E. apply andb_true_iff in E as [E _].
    apply N.leb_le in E. lia.
Qed.

(** X9: one content item is always appended; then the pass writes
    nothing, or it binds one key, a non-negative integer, to a value that
    is not empty and has no newline, or, the digits after ["element "]
    being more than 4300, it raises the [ValueError] of [int] having
    written nothing. *)
Theorem content_write_shape (st : run_state) (content : pyvalue) :
  all_extracted_content (process_content st content).1
  = all_extracted_content st ++ [content]
  ∧ (process_content st content = (append_content content st, None)
     ∨ (∃ z v, (0 ≤ z)%Z ∧ v ≠ EmptyString ∧ newline_free v = true
               ∧ process_content st content
                 = (assign_xpath FreeText (IntIndex z) v
                      (append_content content st), None))
     ∨ (∃ n, Text.int_max_str_digits < n
             ∧ process_content st content
               = (append_content content st, Some (ValueError n)))).
Proof.
  unfold process_content.
  destruct content as [| |text|]; try (split; [done | by left]).
  destruct (Text.search Text.match_xpath_phrase text) as [x|] eqn:Ex;
    [|split; [done | by left]].
  destruct (Text.search Text.match_element_index text) as [ds|] eqn:Ed;
    [|split; [done | by left]].
  unfold Text.int.
  destruct (String.length ds <=? Text.int_max_str_digits) eqn:El.
  - split; [done |]. right. left. exists (Text.int_of_digits 0 ds), x.
    destruct (TextFacts.search_Some _ _ _ Ex) as (pre & post & _ & Hx).
    destruct (TextFacts.search_Some _ _ _ Ed) as (pre' & post' & _ & Hd).
    unfold Text.match_xpath_phrase in Hx.
    unfold Text.match_element_index in Hd.
    destruct (Text.strip_prefix _ post) as [r|]; [|done].
    destruct (Text.strip_prefix _ post') as [r'|]; [|done].
    destruct (Text.span _ r) as [[|c v] rest] eqn:Hs; [done |].
    destruct (Text.span _ r') as [[|c' v'] rest'] eqn:Hs'; [done |].
    injection Hx as <-. injection Hd as <-.
    repeat split; [| done | by apply (span_newline_free r _ rest) ].
    by apply (int_of_digits_nonneg r' _ rest').
  - split; [done |]. right. right. exists (String.length ds).
    split; [|done]. apply Nat.leb_gt in El. exact El.
Qed.

(** ** The stored map and the stored records *)

Lemma have_keys_assign (c : channel) (k : elem_index) (v : string)
    (st : run_state) :
  records_have_keys st → records_have_keys (assign_xpath c k v st).
Proof.
  intros H r x Hr Hx. destruct (H r x Hr Hx) as (k' & Hk & Hm).
  exists k'. split; [done |]. simpl. rewrite lookup_insert.
  by destruct (decide (k = k')).
Qed.

Lemma have_keys_process_action (h : agent_history) (i : nat)
    (a : action_data) (st : run_state) :
  single_action a → records_have_keys st →
  records_have_keys (process_action h i a st).
Proof.
  intros Hone H. unfold process_action.
  pose proof (preserved_resolve_action records_have_keys have_keys_assign
                a st H) as H'.
  destruct (resolve_action a st) as [d st'] eqn:E. simpl in H'.
  intros r x [Hr| ->%list_elem_of_singleton]%elem_of_app Hx.
  - exact (H' r x Hr Hx).
  - simpl in *.
    destruct (resolve_action_invariant a st st' d x Hone E Hx)
      as (k & Hk & Hm).
    exists k. by rewrite Hm.
Qed.

Lemma have_keys_process_actions (h : agent_history)
    (actions : list action_data) (i : nat) (st : run_state) :
  Forall single_action actions → records_have_keys st →
  records_have_keys (process_actions h i actions st).
Proof.
  intros Hall. revert i st.
  induction Hall as [|a rest Ha _ IH]; intros i st H; [done |].
  simpl. by apply IH, have_keys_process_action.
Qed.

Lemma have_keys_process_history (st : run_state) (h : agent_history) :
  Forall single_action (model_actions h) → records_have_keys st →
  records_have_keys (process_history st h).1.
Proof.
  intros Hall H. unfold process_history.
  apply (preserved_process_contents records_have_keys have_keys_assign);
    [done |].
  by apply have_keys_process_actions.
Qed.

Lemma have_keys_histories (hs : list agent_history) (st : run_state) :
  Forall (λ h, Forall single_action (model_actions h)) hs →
  records_have_keys st → records_have_keys (state_after hs st).
Proof.
  intros Hall. revert st. unfold state_after.
  induction Hall as [|h hs Hh _ IH]; intros st H; [done |].
  simpl. by apply IH, have_keys_process_history.
Qed.

(** X10: when a run stores a record (the agent returns for every
    scenario and no content item makes line 242 raise) and every entry of
    the run names one action, every record of the stored execution record
    that carries an XPath carries an element index that is a key of the
    stored map. *)
Theorem stored_xpaths_have_keys (agent : nat → string → agent_outcome)
    (display : run_state → agent_history → option exn) (steps : string)
    (ss : session_state) (hs : list agent_history) :
  agent_returns agent 0 (split_scenarios steps) hs →
  Forall clean_history hs →
  hs ≠ [] →
  Forall (λ h, Forall single_action (model_actions h)) hs →
  ∃ r, history (session_after agent display steps ss) = Some r
       ∧ xpaths_have_keys (rec_detailed_actions r) (rec_element_xpaths r).
Proof.
  intros Hret Hclean [h Hlast]%last_is_Some Hall. unfold session_after.
  rewrite (execute_test_returns agent display steps ss hs h Hret Hclean
             Hlast).
  eexists. split; [done |]. simpl. apply have_keys_histories; [done |].
  intros r x Hr. by apply elem_of_nil in Hr.
Qed.

Lemma stored_xpaths_have_keys_witness :
  ∃ r, history (session_after (λ _ _, Returns sample_history)
                  quiet_display "Scenario: A" used_session) = Some r
       ∧ xpaths_have_keys (rec_detailed_actions r) (rec_element_xpaths r).
Proof.
  apply (stored_xpaths_have_keys (λ _ _, Returns sample_history)
           quiet_display "Scenario: A" used_session [sample_history]).
  - vm_compute. tauto.
  - repeat constructor.
  - discriminate.
  - repeat constructor; right; vm_compute; lia.
Defined.

(** ** [execute_test]: the ways a run ends *)

(** X11: on a text without [Scenario:] line no agent is run: whatever the
    agent, the session is left as it was and the error shown is the read
    of the unbound variable [history]. *)
Theorem no_scenario_no_run (agent : nat → string → agent_outcome)
    (display : run_state → agent_history → option exn) (steps : string)
    (ss : session_state) :
  has_scenario_line steps = false →
  execute_test agent display steps ss
  = (ss, Some (UnboundLocalError "history")).
Proof.
  intros H. unfold execute_test, try_body, split_scenarios.
  by rewrite (split_loop_idle _ H).
Qed.

Lemma no_scenario_no_run_witness :
  execute_test flaky_agent failing_display "" used_session
  = (used_session, Some (UnboundLocalError "history")).
Proof.
  apply (no_scenario_no_run flaky_agent failing_display "" used_session).
  reflexivity.
Defined.

Lemma run_scenarios_app (agent : nat → string → agent_outcome)
    (pre rest : list string) (hs : list agent_history) (n : nat)
    (last0 : option agent_history) (st : run_state) :
  agent_returns agent n pre hs →
  Forall clean_history hs →
  run_scenarios agent n (pre ++ rest) last0 st
  = run_scenarios agent (n + length pre) rest (last_history hs last0)
      (state_after hs st).
Proof.
  revert hs n last0 st.
  induction pre as [|sc pre IH]; intros [|h hs] n last0 st; simpl; try done.
  - intros _ _. by rewrite Nat.add_0_r.
  - intros [-> Hrest] Hall. inversion Hall as [|? ? Hh Hhs]; subst.
    destruct (process_history_outline st h Hh) as (He & _).
    unfold state_after. cbn [fold_left].
    destruct (process_history st h) as [st' o]. simpl in He. subst o.
    rewrite (IH _ _ _ _ Hrest Hhs), Nat.add_succ_r.
    unfold last_history, state_after. cbn [fst]. rewrite last_cons.
    by destruct (last hs).
Qed.

(** X12: when the scenarios before some scenario go through (the agent
    returns and no content item makes line 242 raise) and the agent raises
    for that scenario, the error shown is that exception; what the
    scenarios before it produced is dropped and the session is left as it
    was. *)
Theorem first_failure_reported (agent : nat → string → agent_outcome)
    (display : run_state → agent_history → option exn) (steps : string)
    (ss : session_state) (pre post : list string) (scenario : string)
    (hs : list agent_history) (e : exn) :
  split_scenarios steps = pre ++ scenario :: post →
  agent_returns agent 0 pre hs →
  Forall clean_history hs →
  agent (length pre) scenario = Raises e →
  execute_test agent display steps ss = (ss, Some e).
Proof.
  intros Hs Hret Hall Hr. unfold execute_test, try_body.
  rewrite Hs, (run_scenarios_app _ _ _ _ _ _ _ Hret Hall). simpl.
  by rewrite Hr.
Qed.

Lemma first_failure_reported_witness :
  execute_test flaky_agent quiet_display two_scenarios used_session
  = (used_session, Some (AgentError "browser closed")).
Proof.
  apply (first_failure_reported flaky_agent quiet_display two_scenarios
           used_session
           ["Scenario: A" +:+ String Text.newline "  Given a page"] []
           ("Scenario: B" +:+ String Text.newline "  Then done")
           [sample_history] (AgentError "browser closed")).
  - reflexivity.
  - vm_compute. tauto.
  - repeat constructor.
  - reflexivity.
Defined.

(** X13: a run that goes through (the agent returns for every scenario
    and no content item makes line 242 raise) stores a new record whatever
    record the session held before, leaves the session's date as it was,
    and dates the record with it, or with ["Unknown"] when the session has
    none; the error it shows, if any, is the one the display code raised
    after the store. *)
Theorem successful_run_replaces_record
    (agent : nat → string → agent_outcome)
    (display : run_state → agent_history → option exn) (steps : string)
    (ss : session_state) (hs : list agent_history) (h : agent_history) :
  agent_returns agent 0 (split_scenarios steps) hs →
  Forall clean_history hs →
  last hs = Some h →
  ∃ r,
    execute_test agent display steps ss
    = ({| history := Some r; execution_date := execution_date ss |},
       display (state_after hs initial_state) h)
    ∧ execute_test agent display steps
        {| history := None; execution_date := execution_date ss |}
      = ({| history := Some r; execution_date := execution_date ss |},
         display (state_after hs initial_state) h)
    ∧ rec_execution_date r
      = match execution_date ss with Some d => d | None => "Unknown" end
    ∧ rec_element_xpaths r
      = element_xpath_map (state_after hs initial_state).
Proof.
  intros Hret Hall Hlast. eexists.
  rewrite !(execute_test_returns agent display steps _ hs h Hret Hall Hlast).
  by repeat split.
Qed.

Lemma successful_run_replaces_record_witness :
  ∃ r,
    execute_test steady_agent failing_display two_scenarios used_session
    = ({| history := Some r;
          execution_date := execution_date used_session |},
       Some (DisplayError "No module named 'pandas'"))
    ∧ execute_test steady_agent failing_display two_scenarios
        {| history := None; execution_date := execution_date used_session |}
      = ({| history := Some r;
            execution_date := execution_date used_session |},
         Some (DisplayError "No module named 'pandas'"))
    ∧ rec_execution_date r
      = match execution_date used_session with
        | Some d => d
        | None => "Unknown"
        end
    ∧ rec_element_xpaths r
      = element_xpath_map
          (state_after [sample_history; two_key_history] initial_state).
Proof.
  apply (successful_run_replaces_record steady_agent failing_display
           two_scenarios used_session [sample_history; two_key_history]
           two_key_history).
  - vm_compute. tauto.
  - repeat constructor.
  - reflexivity.
Defined.





(** ** The name of the downloaded file (lines 745-763) *)

Lemma span_fst_newline_free (s : string) :
  newline_free (Text.span (λ c, negb (Ascii.eqb c Text.newline)) s).1 = true.
Proof.
  destruct (Text.span _ s) as [run rest] eqn:E.
  by apply (span_newline_free s run rest).
Qed.

Lemma feature_title_newline_free (r title : string) :
  feature_title r = Some title → newline_free title = true.
Proof.
  revert title.
  induction r as [|c r IH]; intros title; cbn [feature_title]; [done |].
  destruct (Text.isspace c).
  - destruct (feature_title r) as [t|].
    + intros [= <-]. by apply IH.
    + destruct (Ascii.eqb c Text.newline); [done |].
      intros [= <-]. exact (span_fst_newline_free (String c r)).
  - intros [= <-]. exact (span_fst_newline_free (String c r)).
Qed.

Lemma newline_free_lstrip (s : string) :
  newline_free s = true → newline_free (Text.lstrip s) = true.
Proof.
  induction s as [|c s IH]; simpl; [done |].
  intros [Hc Hs]%andb_true_iff.
  destruct (Text.isspace c); [by apply IH |]. simpl. by rewrite Hc, Hs.
Qed.

Lemma newline_free_rstrip (s : string) :
  newline_free s = true → newline_free (Text.rstrip s) = true.
Proof.
  induction s as [|c s IH]; simpl; [done |].
  intros [Hc Hs]%andb_true_iff. specialize (IH Hs).
  destruct (Text.rstrip s) as [|c' r].
  - destruct (Text.isspace c); [done |]. simpl. by rewrite Hc.
  - change (negb (Ascii.eqb c Text.newline)
            && newline_free (String c' r) = true).
    by rewrite Hc, IH.
Qed.

Lemma stem_char_lower (c : ascii) :
  negb (Ascii.eqb c Text.newline) = true →
  stem_char (lower_char (if Ascii.eqb c " " then "_"%char else c)) = true.
Proof.
  destruct c as [b0 b1 b2 b3 b4 b5 b6 b7].
  destruct b0, b1, b2, b3, b4, b5, b6, b7; vm_compute; done.
Qed.

Lemma stem_lower_replace (s : string) :
  newline_free s = true →
  string_forall stem_char (lower (replace_spaces s)) = true.
Proof.
  induction s as [|c s IH]; simpl; [done |].
  intros [Hc Hs]%andb_true_iff. by rewrite (stem_char_lower c Hc), (IH Hs).
Qed.

(** X14: whatever the Gherkin text, the stem of the file name has no
    space, no newline and no letter that [lower] would change. *)
Theorem feature_name_stem (steps : string) :
  string_forall stem_char (feature_name steps) = true.
Proof.
  unfold feature_name.
  destruct (Text.search match_feature steps) as [title|] eqn:E; [|done].
  destruct (TextFacts.search_Some _ _ _ E) as (pre & post & _ & Hm).
  unfold match_feature in Hm.
  destruct (Text.strip_prefix _ post) as [r|]; [|done].
  apply stem_lower_replace. unfold Text.strip.
  by apply newline_free_rstrip, newline_free_lstrip,
    (feature_title_newline_free r).
Qed.

(** X15: a Gherkin text in which [Feature:] does not occur gives the
    stem [automated_test]. *)
Theorem feature_name_default (steps : string) :
  ¬ Text.contains "Feature:" steps → feature_name steps = "automated_test".
Proof.
  intros Hno. unfold feature_name.
  destruct (Text.search match_feature steps) as [title|] eqn:E; [|done].
  destruct (TextFacts.search_Some _ _ _ E) as (pre & post & -> & Hm).
  unfold match_feature in Hm.
  destruct (Text.strip_prefix _ post) as [r|] eqn:Hp; [|done].
  apply TextFacts.strip_prefix_Some in Hp as ->.
  destruct Hno.
  apply TextFacts.contains_app_l, TextFacts.contains_prefix.
Qed.

Lemma feature_name_default_witness :
  feature_name ("Scenario: A" +:+ String Text.newline "  Given x")
  = "automated_test".
Proof.
  apply (feature_name_default
           ("Scenario: A" +:+ String Text.newline "  Given x")).
  apply TextFacts.not_contains. reflexivity.
Defined.

Lemma feature_no_straddle (v t : string) :
  v ≠ EmptyString → ¬ Text.contains "Feature:" v →
  Text.strip_prefix "Feature:" (v +:+ "Feature:" +:+ t) = None.
Proof.
  intros Hv Hno.
  destruct (Text.strip_prefix "Feature:" (v +:+ "Feature:" +:+ t))
    as [r|] eqn:E; [exfalso | done].
  destruct v as [|c1 v]; [done |].
  do 7 (destruct v as [|? v];
        [rewrite ?TextFacts.app_cons, ?TextFacts.app_nil in E;
         TextFacts.split_eqb E; done |]).
  rewrite ?TextFacts.app_cons in E. TextFacts.split_eqb E.
  apply Hno. by exists EmptyString, v.
Qed.

Lemma feature_title_whitespace (w r title : string) :
  string_forall Text.isspace w = true →
  feature_title r = Some title →
  feature_title (w +:+ r) = Some title.
Proof.
  intros Hw Hr. induction w as [|c w IH]; [done |].
  simpl in Hw. apply andb_true_iff in Hw as [Hc Hw].
  rewrite TextFacts.app_cons. simpl. by rewrite Hc, (IH Hw).
Qed.

Lemma span_line (v rest : string) :
  newline_free v = true →
  rest = EmptyString ∨ (∃ r, rest = String Text.newline r) →
  Text.span (λ c, negb (Ascii.eqb c Text.newline)) (v +:+ rest) = (v, rest).
Proof.
  intros Hv Hrest. induction v as [|c v IH].
  - rewrite TextFacts.app_nil. by destruct Hrest as [->|[r ->]].
  - simpl in Hv. apply andb_true_iff in Hv as [Hc Hv].
    rewrite TextFacts.app_cons. simpl. by rewrite Hc, (IH Hv).
Qed.

(** X16: for a Gherkin text whose first [Feature:] is followed by
    whitespace, then by a title that starts with a visible character and
    runs to the end of its line, the stem of the file name is that title,
    stripped, with [_] for each space, in lower case. *)
Theorem feature_name_from_title (pre w rest : string) (c : ascii)
    (t : string) :
  ¬ Text.contains "Feature:" pre →
  string_forall Text.isspace w = true →
  Text.isspace c = false →
  newline_free (String c t) = true →
  rest = EmptyString ∨ (∃ r, rest = String Text.newline r) →
  feature_name (pre +:+ "Feature:" +:+ w +:+ String c t +:+ rest)
  = lower (replace_spaces (Text.strip (String c t))).
Proof.
  intros Hpre Hw Hc Ht Hrest. unfold feature_name.
  rewrite TextFacts.search_skip.
  - assert (Hm : match_feature ("Feature:" +:+ w +:+ String c t +:+ rest)
                 = Some (String c t)).
    { unfold match_feature. rewrite TextFacts.strip_prefix_app.
      apply feature_title_whitespace; [done |].
      rewrite TextFacts.app_cons. cbn [feature_title]. rewrite Hc.
      rewrite <- TextFacts.app_cons. by rewrite span_line. }
    by rewrite (TextFacts.search_here _ _ _ Hm).
  - intros u v -> Hv. unfold match_feature.
    rewrite feature_no_straddle; [done.. |].
    intros Hin. apply Hpre. by apply TextFacts.contains_app_l.
Qed.

Lemma feature_name_from_title_witness :
  feature_name
    ("# smoke" +:+ String Text.newline "Feature:" +:+ "  "
     +:+ "User Login " +:+ String Text.newline "Scenario: A")
  = "user_login".
Proof.
  apply (feature_name_from_title ("# smoke" +:+ String Text.newline "")
           "  " (String Text.newline "Scenario: A") "U" "ser Login ").
  - apply TextFacts.not_contains. reflexivity.
  - reflexivity.
  - reflexivity.
  - reflexivity.
  - right. by eexists.
Defined.

(** ** Code generation (lines 699-776) *)

(** X17: with steps and a record in the session and a framework the
    selector offers, neither table lookup fails: when the generator
    returns, its code is stored and offered under the name made of the
    stem, [_automation.] and the framework's extension, with the
    highlighting language that goes with that extension; when the
    generator raises, the state is left as it was. *)
Theorem code_generation_outcome (r : rerun) (app : app_state)
    (steps : string) (record : execution_record) :
  selected_framework r ∈ dict_keys FRAMEWORK_GENERATORS →
  generated_steps app = Some steps →
  history (test_session app) = Some record →
  ∃ g ext,
    dict_get FRAMEWORK_GENERATORS (selected_framework r) = Some g
    ∧ dict_get FRAMEWORK_EXTENSIONS (selected_framework r) = Some ext
    ∧ (ext, code_language (selected_framework r)) ∈ extension_languages
    ∧ (∀ code, generator r g steps record = inr code →
         code_generation_section r app
         = (set_code code app,
            Download code (code_language (selected_framework r))
              (feature_name steps +:+ "_automation." +:+ ext)))
    ∧ (∀ e, generator r g steps record = inl e →
         code_generation_section r app = (app, CodegenFailed e)).
Proof.
  intros Hsel Hs Hh. unfold code_generation_section. rewrite Hs, Hh.
  unfold dict_keys in Hsel. simpl in Hsel.
  repeat (apply elem_of_cons in Hsel as [->|Hsel]);
    [.. | by apply elem_of_nil in Hsel];
    eexists _, _; (split; [reflexivity |]); (split; [reflexivity |]);
    (split; [vm_compute; set_solver |]);
    split; intros ? Hg; simpl; by rewrite Hg.
Qed.

Lemma code_generation_outcome_witness :
  code_generation_section (press_generate_code idle_run) tested_app
  = (set_code "*** Test Cases ***" tested_app,
     Download "*** Test Cases ***" "robot" "login_automation.robot").
Proof.
  destruct (code_generation_outcome (press_generate_code idle_run)
              tested_app two_scenarios earlier_record)
    as (g & ext & Hg & Hext & _ & Hok & _).
  - vm_compute. set_solver.
  - reflexivity.
  - reflexivity.
  - injection Hg as <-. injection Hext as <-.
    exact (Hok "*** Test Cases ***" eq_refl).
Defined.

(** ** One run of the script (lines 594-776) *)

(** X18: a run in which the session holds no steps and no generation takes
    place changes nothing: Execute runs no test, and Generate Code only
    shows that prior state is missing. *)
Theorem nothing_without_steps (r : rerun) (app : app_state) :
  generated_steps app = None →
  generate_btn r && truthy_str (user_story r) = false →
  main_body r app
  = {| final_state := app; uncaught := None;
       codegen := if generate_code_btn r then Some MissingPriorState
                  else None |}.
Proof.
  intros Hs Hg.
  unfold main_body, generation_section, early_execute_section,
    editor_section, execute_section, code_generation_section.
  rewrite Hg. destruct (execute_btn r); rewrite ?Hs;
    by destruct (generate_code_btn r).
Qed.

Lemma nothing_without_steps_witness :
  main_body (press_execute idle_run) empty_app
  = {| final_state := empty_app; uncaught := None; codegen := None |}.
Proof.
  apply (nothing_without_steps (press_execute idle_run) empty_app);
    reflexivity.
Defined.

(** X19: a Generate click with a story asks the language model twice; the
    steps kept are what the editor returns for the second answer, the
    first answer being overwritten; nothing else of the state changes. *)
Theorem generate_keeps_second_answer (r : rerun) (app : app_state)
    (first second : string) :
  generate_btn r = true → truthy_str (user_story r) = true →
  execute_btn r = false → generate_code_btn r = false →
  qa_agent_run r 0 (user_story r) = QaReturns first →
  qa_agent_run r 1 (user_story r) = QaReturns second →
  main_body r app
  = {| final_state := set_steps (text_area r second) app;
       uncaught := None; codegen := None |}.
Proof.
  intros Hg Hu He Hc H0 H1.
  unfold main_body, generation_section, early_execute_section,
    editor_section, execute_section.
  by rewrite Hg, Hu, He, Hc, H0, H1.
Qed.

Lemma generate_keeps_second_answer_witness :
  generated_steps (final_state (main_body press_generate empty_app))
  = Some "Scenario: second answer".
Proof.
  by rewrite (generate_keeps_second_answer press_generate empty_app
                "Scenario: first answer" "Scenario: second answer"
                eq_refl eq_refl eq_refl eq_refl eq_refl eq_refl).
Defined.

Lemma execute_click_state (r : rerun) (app : app_state) (shown : string) :
  generate_btn r = false → execute_btn r = true →
  generate_code_btn r = false →
  generated_steps app = Some shown →
  final_state (main_body r app)
  = set_session
      (execute_test (browser_agent r 1) (show_results r 1)
         (text_area r shown)
         {| history :=
              history (execute_test (browser_agent r 0) (show_results r 0)
                         shown (test_session app)).1;
            execution_date := Some (today r) |}).1
      (set_steps (text_area r shown) app).
Proof.
  intros Hg He Hc Hs.
  unfold main_body, generation_section, early_execute_section,
    editor_section, execute_section.
  rewrite Hg. cbn -[execute_test]. rewrite He, Hs.
  cbn -[execute_test]. by rewrite Hc, Hs.
Qed.

Lemma execute_test_date (agent : nat → string → agent_outcome)
    (display : run_state → agent_history → option exn) (steps : string)
    (ss : session_state) :
  execution_date (execute_test agent display steps ss).1
  = execution_date ss.
Proof.
  unfold execute_test, try_body.
  by destruct (run_scenarios _ _ _ _ _) as [e|[[h|] st]].
Qed.

(** X20: an Execute click with steps in the session runs the tests on the
    text the editor returns, after having set the session's date to today:
    the date is today's whatever the runs do, and when that run goes
    through (the agent returns for every scenario and no content item
    makes line 242 raise), the record stored is the one of that run, dated
    today. *)
Theorem execute_click_stores_dated_record (r : rerun) (app : app_state)
    (shown : string) (hs : list agent_history) (h : agent_history) :
  generate_btn r = false → execute_btn r = true →
  generate_code_btn r = false →
  generated_steps app = Some shown →
  execution_date (test_session (final_state (main_body r app)))
  = Some (today r)
  ∧ generated_steps (final_state (main_body r app))
    = Some (text_area r shown)
  ∧ (agent_returns (browser_agent r 1) 0
       (split_scenarios (text_area r shown)) hs →
     Forall clean_history hs →
     last hs = Some h →
     ∃ record,
       history (test_session (final_state (main_body r app)))
       = Some record
       ∧ rec_execution_date record = today r
       ∧ rec_urls record = urls h
       ∧ rec_element_xpaths record
         = element_xpath_map (state_after hs initial_state)).
Proof.
  intros Hg He Hc Hs.
  rewrite (execute_click_state r app shown Hg He Hc Hs). simpl.
  split; [by rewrite execute_test_date |]. split; [done |].
  intros Hret Hall Hlast.
  rewrite (execute_test_returns _ _ _ _ hs h Hret Hall Hlast).
  by eexists.
Qed.

Lemma execute_click_stores_dated_record_witness :
  ∃ record,
    history (test_session
               (final_state (main_body (press_execute idle_run) tested_app)))
    = Some record
    ∧ rec_execution_date record = "November 03, 2026"
    ∧ rec_urls record = urls two_key_history
    ∧ rec_element_xpaths record
      = element_xpath_map
          (state_after [sample_history; two_key_history] initial_state).
Proof.
  apply (proj2 (proj2 (execute_click_stores_dated_record
    (press_execute idle_run) tested_app two_scenarios
    [sample_history; two_key_history] two_key_history
    eq_refl eq_refl eq_refl eq_refl))).
  - vm_compute. tauto.
  - repeat constructor.
  - reflexivity.
Defined.

(** X21: an Execute click runs the tests twice, first on the stored steps
    with the date as it was.  When that first run goes through (the agent
    returns for every scenario and no content item makes line 242 raise)
    and a scenario of the second run raises, the record left in the
    session is the one of the first run, dated as before the click, or
    ["Unknown"], while the session's date is today's. *)
Theorem first_run_record_survives (r : rerun) (app : app_state)
    (shown : string) (hs : list agent_history) (h : agent_history)
    (i : nat) (scenario : string) (e : exn) :
  generate_btn r = false → execute_btn r = true →
  generate_code_btn r = false →
  generated_steps app = Some shown →
  agent_returns (browser_agent r 0) 0 (split_scenarios shown) hs →
  Forall clean_history hs →
  last hs = Some h →
  split_scenarios (text_area r shown) !! i = Some scenario →
  browser_agent r 1 i scenario = Raises e →
  history (test_session (final_state (main_body r app)))
  = Some (build_record h (state_after hs initial_state) (test_session app))
  ∧ execution_date (test_session (final_state (main_body r app)))
    = Some (today r).
Proof.
  intros Hg He Hc Hs Hret Hall Hlast Hi Hr.
  rewrite (execute_click_state r app shown Hg He Hc Hs). simpl.
  split; [|by rewrite execute_test_date].
  destruct (run_scenarios_raises (browser_agent r 1)
              (split_scenarios (text_area r shown)) 0 i scenario e None
              initial_state Hi Hr) as [e' He'].
  unfold execute_test at 1, try_body at 1. rewrite He'. simpl.
  by rewrite (execute_test_returns _ _ _ _ hs h Hret Hall Hlast).
Qed.

Lemma first_run_record_survives_witness :
  ∃ record,
    history (test_session (final_state (main_body second_run_fails ready_app)))
    = Some record
    ∧ rec_execution_date record = "Unknown"
    ∧ execution_date
        (test_session (final_state (main_body second_run_fails ready_app)))
      = Some "November 03, 2026".
Proof.
  destruct (first_run_record_survives second_run_fails ready_app
              two_scenarios [sample_history; two_key_history]
              two_key_history 1
              ("Scenario: B" +:+ String Text.newline "  Then done")
              (AgentError "browser closed")) as [Hh Hd];
    try reflexivity.
  - vm_compute. tauto.
  - repeat constructor.
  - eexists. split; [exact Hh |]. split; [reflexivity | exact Hd].
Defined.
